(** * THORChain Ledger app driver (src/index.js): shallow embedding

    The class [THORChainApp] encodes requests for a hardware signing device
    and decodes its answers.  The embedding follows the JavaScript source:

    - a [Buffer] is a list of bytes; reads out of range give [undefined],
      which is kept as [None] in [jsnum];
    - a promise is a computation over the application object that either
      fulfils, rejects with a thrown value, or never settles ([Outcome]);
    - the transport and the helpers imported from [./common] and
      [./helperV2] are parameters of the development. *)

From Stdlib Require Import ZArith List Bool Lia.
From Stdlib Require Import Strings.String Strings.Ascii Strings.Byte.
Import ListNotations.

Open Scope Z_scope.
Open Scope list_scope.

(** ** JavaScript numbers and buffers *)

(** A JavaScript number that is either an integer or not usable as one:
    [None] stands for [undefined] and for [NaN]. *)
Definition jsnum := option Z.

Definition js_add (a b : jsnum) : jsnum :=
  match a, b with
  | Some x, Some y => Some (x + y)
  | _, _ => None
  end.

Definition js_mul (a b : jsnum) : jsnum :=
  match a, b with
  | Some x, Some y => Some (x * y)
  | _, _ => None
  end.

(** [a & m]: the operand goes through ToInt32, which sends [undefined] and
    [NaN] to 0.  The operands met here are bytes, where ToInt32 is the
    identity. *)
Definition js_land (a : jsnum) (m : Z) : Z :=
  match a with
  | Some x => Z.land x m
  | None => 0
  end.

(** [a === n] and [a !== n] against a numeric literal. *)
Definition js_strict_eq (a : jsnum) (n : Z) : bool :=
  match a with
  | Some x => x =? n
  | None => false
  end.

Definition js_strict_neq (a : jsnum) (n : Z) : bool := negb (js_strict_eq a n).

Definition byteZ (b : byte) : Z := Z.of_N (Byte.to_N b).

Module Buffer.

Definition t := list byte.

Definition length (b : t) : Z := Z.of_nat (List.length b).

(** [b[i]] *)
Definition get (b : t) (i : jsnum) : jsnum :=
  match i with
  | Some i => if i <? 0 then None else option_map byteZ (nth_error b (Z.to_nat i))
  | None => None
  end.

(** Offsets of [slice]: truncated, [NaN] is 0, negative values count from
    the end, everything is clamped to [0, length]. *)
Definition adjustOffset (offset : jsnum) (len : Z) : Z :=
  match offset with
  | None => 0
  | Some o => if o <? 0 then Z.max 0 (o + len) else Z.min o len
  end.

(** [b.slice(start, end)] *)
Definition slice (b : t) (start end_ : jsnum) : t :=
  let s := adjustOffset start (length b) in
  let e := adjustOffset end_ (length b) in
  firstn (Z.to_nat (e - s)) (skipn (Z.to_nat s) b).

(** [b.slice(start)] *)
Definition slice_from (b : t) (start : jsnum) : t :=
  slice b start (Some (length b)).

(** [Buffer.alloc(n)] *)
Definition alloc (n : nat) : t := repeat x00 n.

(** UTF-8 encoding of one code unit below 256. *)
Definition utf8_char (c : ascii) : list byte :=
  let n := N_of_ascii c in
  if (n <? 128)%N then [byte_of_ascii c]
  else
    match Byte.of_N (N.lor 192 (N.shiftr n 6)), Byte.of_N (N.lor 128 (N.land n 63)) with
    | Some hi, Some lo => [hi; lo]
    | _, _ => []
    end.

(** The bytes [buf.write(s, offset)] stores when [room] bytes remain:
    whole characters only, as many as fit. *)
Fixpoint utf8_fit (s : string) (room : nat) : list byte :=
  match s with
  | EmptyString => []
  | String c s' =>
      let bs := utf8_char c in
      if (List.length bs <=? room)%nat
      then bs ++ utf8_fit s' (room - List.length bs)
      else []
  end.

(** [buf.write(s, offset)] for [offset] inside the buffer. *)
Definition write (buf : t) (s : string) (offset : nat) : t :=
  let bs := utf8_fit s (List.length buf - offset) in
  firstn offset buf ++ bs ++ skipn (offset + List.length bs) buf.

(** [buf.writeUInt8(value, offset)]; [None] is the RangeError of a value
    that is not a byte or an offset outside the buffer. *)
Definition writeUInt8 (buf : t) (value : Z) (offset : nat) : option t :=
  if (offset <? List.length buf)%nat then
    match (if value <? 0 then None else Byte.of_N (Z.to_N value)) with
    | Some v => Some (firstn offset buf ++ v :: skipn (S offset) buf)
    | None => None
    end
  else None.

(** [buf.toString("ascii")]: the high bit of every byte is cleared. *)
Definition toString_ascii (b : t) : string :=
  string_of_list_ascii
    (map (fun x => ascii_of_N (N.land (Byte.to_N x) 127)) b).

Definition hex_digit (n : N) : ascii :=
  if (n <? 10)%N then ascii_of_N (48 + n) else ascii_of_N (87 + n).

(** [buf.toString("hex")] *)
Definition toString_hex (b : t) : string :=
  string_of_list_ascii
    (flat_map (fun x => [hex_digit (N.shiftr (Byte.to_N x) 4);
                         hex_digit (N.land (Byte.to_N x) 15)]) b).

End Buffer.

(** ** Thrown values, results of promises *)

(** [{ return_code, error_message }], the shape every failure is reduced to. *)
Record ErrorResponse := mkErrorResponse {
  err_return_code : jsnum;
  err_error_message : string
}.

(** What [getVersion] of [./common] resolves to.  A reply built by
    [processErrorResponse] has no [major] field. *)
Record VersionResponse := mkVersionResponse {
  ver_return_code : jsnum;
  ver_error_message : string;
  ver_test_mode : bool;
  ver_major : jsnum;
  ver_minor : jsnum;
  ver_patch : jsnum;
  ver_device_locked : bool;
  ver_target_id : string
}.

Inductive Thrown :=
| JsError (message : string)            (* throw new Error(message) *)
| JsTypeError                           (* raised by the platform *)
| JsRangeError                          (* raised by the platform *)
| ThrownVersion (v : VersionResponse)   (* throw this.versionResponse *)
| External (description : string).      (* raised by a collaborator *)

Inductive Outcome (A : Type) :=
| Returned (a : A)
| Thrown_ (e : Thrown)
| Diverges.

Arguments Returned {A} a.
Arguments Thrown_ {A} e.
Arguments Diverges {A}.

(** The value a facade operation resolves to: the decoded record, or the
    [{ return_code, error_message }] object. *)
Inductive Reply (A : Type) :=
| Decoded (a : A)
| ErrorReply (e : ErrorResponse).

Arguments Decoded {A} a.
Arguments ErrorReply {A} e.

(** ** Static helpers *)

(** Modelled from the spec: the constant [ERROR_CODE.NoError] of [./common];
    "success is 0x9000 (aliased as NoError)".  The example component
    compares return codes with either spelling. *)
Definition ERROR_CODE_NoError : Z := 0x9000.

(** [static serializeHRP(hrp)]; [None] is [null] or [undefined]. *)
Definition serializeHRP (hrp : option string) : Outcome Buffer.t :=
  match hrp with
  | None => Thrown_ (JsError "Invalid HRP")
  | Some hrp =>
      if ((String.length hrp <? 3)%nat || (83 <? String.length hrp)%nat)%bool
      then Thrown_ (JsError "Invalid HRP")
      else
        let buf := Buffer.alloc (1 + String.length hrp) in
        match Buffer.writeUInt8 buf (Z.of_nat (String.length hrp)) 0 with
        | Some buf => Returned (Buffer.write buf hrp 1)
        | None => Thrown_ JsRangeError
        end
  end.

(** Bytes of a string, one per character. *)
Definition bytes_of_string (s : string) : Buffer.t :=
  map byte_of_ascii (list_ascii_of_string s).

Definition is_ascii7 (s : string) : Prop :=
  Forall (fun c => (N_of_ascii c < 128)%N) (list_ascii_of_string s).

Definition is_7bit (b : Buffer.t) : Prop := Forall (fun x => byteZ x < 128) b.

(** The text of 7-bit bytes, one character per byte. *)
Definition ascii_text (b : Buffer.t) : string :=
  string_of_list_ascii (map ascii_of_byte b).

(** ** Data of the protocol *)

(** A derivation path as the caller passes it. *)
Definition Path := list Z.

(** An element of the chunk array of [signGetChunks]: a buffer, or the
    object [serializePath] returns for an unsupported version. *)
Inductive Chunk :=
| Bytes (b : Buffer.t)
| ErrorToken (e : ErrorResponse).

(** Arguments of one [transport.send(cla, ins, p1, p2, data, statusList)];
    [None] is an argument left out. *)
Record Request := mkRequest {
  req_cla : Z;
  req_ins : Z;
  req_p1 : Z;
  req_p2 : Z;
  req_data : option Buffer.t;
  req_statusList : option (list Z)
}.

Inductive Signature :=
| SigUndefined
| SigNull
| SigBytes (b : Buffer.t).

(** What a chunk submission resolves to, and what [sign] returns. *)
Record SignResponse := mkSignResponse {
  sign_return_code : jsnum;
  sign_error_message : string;
  sign_signature : Signature
}.

Record AppInfo := mkAppInfo {
  app_return_code : jsnum;
  app_error_message : string;
  appName : string;
  appVersion : string;
  flagLen : jsnum;
  flagsValue : jsnum;
  flag_recovery : bool;
  flag_signed_mcu_code : bool;
  flag_onboarded : bool;
  flag_pin_validated : bool
}.

Record DeviceInfo := mkDeviceInfo {
  dev_return_code : jsnum;
  dev_error_message : string;
  targetId : string;
  seVersion : string;
  flag : string;
  mcuVersion : string
}.

Record AddressResponse := mkAddressResponse {
  bech32_address : string;
  compressed_pk : Buffer.t;
  addr_return_code : jsnum;
  addr_error_message : string
}.

(** What [publicKey] resolves to when the key was fetched. *)
Record PublicKeyResponse := mkPublicKeyResponse {
  pk_compressed_pk : Buffer.t;
  pk_return_code : jsnum;
  pk_error_message : string
}.

(** ** The device and the application object *)

(** One exchange with the device, as the driver asks for it. *)
Inductive Event :=
| EvGetVersion
| EvSend (r : Request)
| EvSignSendChunk (chunkIdx chunkNum : Z) (chunk : option Chunk).

(** Two exchanges that are the same, or are two [send] requests that differ
    in the parameter byte p1 alone, [a] in the first and [b] in the second. *)
Inductive same_up_to_p1 (a b : Z) : Event -> Event -> Prop :=
| same_event (e : Event) : same_up_to_p1 a b e e
| same_send (cla ins p2 : Z) (data : option Buffer.t) (statusList : option (list Z)) :
    same_up_to_p1 a b
      (EvSend (mkRequest cla ins a p2 data statusList))
      (EvSend (mkRequest cla ins b p2 data statusList)).

(** The submissions of the given chunks, one after the other, the first
    with index [chunkIdx]. *)
Fixpoint submissions (chunkNum chunkIdx : Z) (chunks : list Chunk) : list Event :=
  match chunks with
  | [] => []
  | chunk :: chunks' =>
      EvSignSendChunk chunkIdx chunkNum (Some chunk)
        :: submissions chunkNum (chunkIdx + 1) chunks'
  end.

(** [this]: the transport, kept as the exchanges performed on it so far, and
    the cached version response ([None] before the first query). *)
Record App := mkApp {
  transport : list Event;
  versionResponse : option VersionResponse
}.

(** A promise-returning method of the application object. *)
Definition M (A : Type) := App -> App * Outcome A.

Definition ret {A} (a : A) : M A := fun app => (app, Returned a).

Definition settle {A} (o : Outcome A) : M A := fun app => (app, o).

(** [p.then(onFulfilled)], also [await p] followed by the rest of an async
    function. *)
Definition then_ {A B} (p : M A) (onFulfilled : A -> M B) : M B :=
  fun app =>
    match p app with
    | (app', Returned a) => onFulfilled a app'
    | (app', Thrown_ e) => (app', Thrown_ e)
    | (app', Diverges) => (app', Diverges)
    end.

(** [p.then(onFulfilled, onRejected)]: [onRejected] sees the rejection of
    [p] only, not what [onFulfilled] throws. *)
Definition then2 {A B} (p : M A) (onFulfilled : A -> M B)
    (onRejected : Thrown -> M B) : M B :=
  fun app =>
    match p app with
    | (app', Returned a) => onFulfilled a app'
    | (app', Thrown_ e) => onRejected e app'
    | (app', Diverges) => (app', Diverges)
    end.

(** [p.catch(onRejected)] *)
Definition catch_ {A} (p : M A) (onRejected : Thrown -> M A) : M A :=
  then2 p ret onRejected.

Notation "x <- p ;; k" := (then_ p (fun x => k))
  (at level 61, p at next level, right associativity).

(** [Buffer.concat([a, b])] where [b] is what [serializePath] resolved to. *)
Definition concat_with_path (a : Buffer.t) (b : Chunk) : Outcome Buffer.t :=
  match b with
  | Bytes p => Returned (a ++ p)
  | ErrorToken _ => Thrown_ JsTypeError
  end.

Definition unsupported_version : ErrorResponse :=
  {| err_return_code := Some 0x6400;
     err_error_message := "App Version is not supported" |}.

(** ** Sample collaborators

    Stand-ins for the imported helpers and for a device, used to run the
    operations on concrete inputs. *)

Module Sample.

Definition errorCodeToString (code : jsnum) : string :=
  if js_strict_eq code 0x9000 then "No errors"
  else if js_strict_eq code 0x6986 then "Transaction rejected"
  else if js_strict_eq code 0x6984 then "Data is invalid"
  else if js_strict_eq code 0x6400 then "App Version is not supported"
  else "Unknown error code".

Definition processErrorResponse (e : Thrown) : ErrorResponse :=
  match e with
  | ThrownVersion v =>
      {| err_return_code := ver_return_code v;
         err_error_message := ver_error_message v |}
  | JsError message =>
      {| err_return_code := Some 0xffff; err_error_message := message |}
  | _ => {| err_return_code := Some 0xffff; err_error_message := "error" |}
  end.

Definition serializePathv2 (path : Path) : Outcome Buffer.t :=
  if (List.length path =? 5)%nat
  then Returned (repeat x00 20)
  else Thrown_ (JsError "Invalid path.").

Definition sha256 (b : Buffer.t) : Buffer.t := firstn 32 (b ++ repeat x00 32).

Definition ripemd160 (b : Buffer.t) : Buffer.t := firstn 20 b.

Definition bech32_toWords (b : Buffer.t) : list Z := map byteZ b.

Definition bech32_encode (hrp : string) (words : list Z) : Outcome string :=
  Returned (hrp ++ "1")%string.

(** A version answer with the given status and major version. *)
Definition version (code major : Z) : VersionResponse :=
  {| ver_return_code := Some code;
     ver_error_message := errorCodeToString (Some code);
     ver_test_mode := false;
     ver_major := Some major;
     ver_minor := Some 0;
     ver_patch := Some 0;
     ver_device_locked := false;
     ver_target_id := "31100004" |}.

Definition device_getVersion (code major : Z) : list Event -> Outcome VersionResponse :=
  fun _ => Returned (version code major).

(** 33 bytes 0xAA, the text "tthor1xyz" and the status word 0x9000. *)
Definition address_response : Buffer.t :=
  repeat xaa 33 ++ bytes_of_string "tthor1xyz" ++ [x90; x00].

Definition device_send : list Event -> Request -> Outcome Buffer.t :=
  fun _ _ => Returned address_response.

Definition accepted : SignResponse :=
  {| sign_return_code := Some 0x9000;
     sign_error_message := "No errors";
     sign_signature := SigNull |}.

Definition signed : SignResponse :=
  {| sign_return_code := Some 0x9000;
     sign_error_message := "No errors";
     sign_signature := SigBytes [x30; x44] |}.

Definition refused : SignResponse :=
  {| sign_return_code := Some 0x6986;
     sign_error_message := "Transaction rejected";
     sign_signature := SigNull |}.

(** A refusal that comes with text in the signature field. *)
Definition refused_with_text : SignResponse :=
  {| sign_return_code := Some 0x6984;
     sign_error_message := "Data is invalid";
     sign_signature := SigBytes [x41] |}.

Definition refuse_with_text
  : list Event -> Z -> Z -> option Chunk -> Outcome SignResponse :=
  fun _ _ _ _ => Returned refused_with_text.

(** A device that refuses the chunk numbered [k], signs at the last chunk
    and accepts the others. *)
Definition refuse_chunk (k : Z)
  : list Event -> Z -> Z -> option Chunk -> Outcome SignResponse :=
  fun _ chunkIdx chunkNum _ =>
    if chunkIdx =? k then Returned refused
    else if chunkIdx =? chunkNum then Returned signed
    else Returned accepted.

Definition path : Path := [44; 931; 0; 0; 0].

(** The application object right after construction. *)
Definition start : App := {| transport := []; versionResponse := None |}.

(** A device-information response: target id, "1.6", four flag bytes,
    "1.11" with a trailing zero byte, status word 0x9000. *)
Definition deviceInfo_tid : Buffer.t := [x31; x10; x00; x04].
Definition deviceInfo_se : Buffer.t := bytes_of_string "1.6".
Definition deviceInfo_flags : Buffer.t := [xee; x00; x00; x00].
Definition deviceInfo_mcu : Buffer.t := bytes_of_string "1.11" ++ [x00].


(** Three times the character U+00E9, which UTF-8 writes in two bytes. *)
Definition e_acute3 : string :=
  String (ascii_of_N 233) (String (ascii_of_N 233) (String (ascii_of_N 233) EmptyString)).

(** A transport that is disconnected. *)
Definition disconnected : Thrown := External "disconnected".

Definition device_getVersion_rejects : list Event -> Outcome VersionResponse :=
  fun _ => Thrown_ disconnected.

Definition device_send_rejects : list Event -> Request -> Outcome Buffer.t :=
  fun _ _ => Thrown_ disconnected.

(** A device that is disconnected at the chunk numbered [k] and accepts the
    others. *)
Definition throw_at (k : Z)
  : list Event -> Z -> Z -> option Chunk -> Outcome SignResponse :=
  fun _ chunkIdx _ _ =>
    if chunkIdx =? k then Thrown_ disconnected else Returned accepted.

(** A key fetcher that sends its data in one request and answers with a key
    of 33 bytes 0x02. *)
Definition publicKeyv2 (data : Buffer.t) : M (Reply PublicKeyResponse) :=
  fun app =>
    ({| transport := transport app
                     ++ [EvSend (mkRequest 0x55 0x04 0 0 (Some data) (Some [0x9000]))];
        versionResponse := versionResponse app |},
     Returned (Decoded {| pk_compressed_pk := repeat x02 33;
                          pk_return_code := Some 0x9000;
                          pk_error_message := "No errors" |})).

(** An application-information response: "THORChain", "2.1.0", one flag
    byte 0x83, status word 0x9000. *)
Definition appInfo_name : Buffer.t := bytes_of_string "THORChain".
Definition appInfo_version : Buffer.t := bytes_of_string "2.1.0".

End Sample.

(** ** The class THORChainApp *)

Section THORChainApp.

(** Constants and functions of [./common]. *)
Variable CHUNK_SIZE : Z.
Variable CLA : Z.
Variable INS_GET_ADDR_SECP256K1 : Z.
Variable P1_ONLY_RETRIEVE : Z.
Variable P1_SHOW_ADDRESS_IN_DEVICE : Z.
Variable errorCodeToString : jsnum -> string.
Variable processErrorResponse : Thrown -> ErrorResponse.

(** [serializePathv2] of [./helperV2]. *)
Variable serializePathv2 : Path -> Outcome Buffer.t.

(** Platform and library functions: [buf.toString()], the hashes and the
    bech32 encoder. *)
Variable toString_utf8 : Buffer.t -> string.
Variable sha256 : Buffer.t -> Buffer.t.
Variable ripemd160 : Buffer.t -> Buffer.t.
Variable bech32_toWords : Buffer.t -> list Z.
Variable bech32_encode : string -> list Z -> Outcome string.

(** The device behind the transport: what each exchange settles to, given
    the exchanges that came before. *)
Variable device_getVersion : list Event -> Outcome VersionResponse.
Variable device_send : list Event -> Request -> Outcome Buffer.t.
Variable device_signSendChunkv2 :
  list Event -> Z -> Z -> option Chunk -> Outcome SignResponse.

(** [static getBech32FromPK(hrp, pk)] *)
Definition getBech32FromPK (hrp : string) (pk : Buffer.t) : Outcome string :=
  if negb (Buffer.length pk =? 33)
  then Thrown_ (JsError "expected compressed public key [31 bytes]")
  else
    let hashSha256 := sha256 pk in
    let hashRip := ripemd160 hashSha256 in
    bech32_encode hrp (bech32_toWords hashRip).

(** [getVersion(this.transport)] of [./common]: one exchange. *)
Definition getVersion_common : M VersionResponse :=
  fun app =>
    ({| transport := transport app ++ [EvGetVersion];
        versionResponse := versionResponse app |},
     device_getVersion (transport app)).

(** [this.transport.send(...)] *)
Definition transport_send (r : Request) : M Buffer.t :=
  fun app =>
    ({| transport := transport app ++ [EvSend r];
        versionResponse := versionResponse app |},
     device_send (transport app) r).

(** [signSendChunkv2(this, chunkIdx, chunkNum, chunk)] of [./helperV2]. *)
Definition signSendChunkv2 (chunkIdx chunkNum : Z) (chunk : option Chunk)
  : M SignResponse :=
  fun app =>
    ({| transport := transport app ++ [EvSignSendChunk chunkIdx chunkNum chunk];
        versionResponse := versionResponse app |},
     device_signSendChunkv2 (transport app) chunkIdx chunkNum chunk).

(** [this.versionResponse = v] *)
Definition set_versionResponse (v : VersionResponse) : M unit :=
  fun app =>
    ({| transport := transport app; versionResponse := Some v |},
     Returned tt).

(** [async serializePath(path)] *)
Definition serializePath (path : Path) : M Chunk :=
  v <- getVersion_common ;;
  _ <- set_versionResponse v ;;
  if js_strict_neq (ver_return_code v) ERROR_CODE_NoError
  then settle (Thrown_ (ThrownVersion v))
  else
    if js_strict_eq (ver_major v) 2
    then
      settle (match serializePathv2 path with
              | Returned b => Returned (Bytes b)
              | Thrown_ e => Thrown_ e
              | Diverges => Diverges
              end)
    else ret (ErrorToken unsupported_version).

(** The [for] loop of [signGetChunks], [fuel] bounding its iterations;
    [None] when the bound is reached. *)
Fixpoint signGetChunks_loop (fuel : nat) (buffer : Buffer.t) (i : Z)
    (chunks : list Chunk) : option (list Chunk) :=
  match fuel with
  | O => None
  | S fuel' =>
      if i <? Buffer.length buffer then
        let end_ := i + CHUNK_SIZE in
        let end_ := if i >? Buffer.length buffer then Buffer.length buffer else end_ in
        signGetChunks_loop fuel' buffer (i + CHUNK_SIZE)
          (chunks ++ [Bytes (Buffer.slice buffer (Some i) (Some end_))])
      else Some chunks
  end.

(** [async signGetChunks(path, message)]; [message] stands for the bytes
    of [Buffer.from(message)].  With a positive chunk size the loop ends
    within [length + 1] tests of its condition. *)
Definition signGetChunks (path : Path) (message : Buffer.t) : M (list Chunk) :=
  serializedPath <- serializePath path ;;
  let chunks := [serializedPath] in
  let buffer := message in
  settle (match signGetChunks_loop (S (List.length buffer)) buffer 0 chunks with
          | Some chunks => Returned chunks
          | None => Diverges
          end).

(** [async getVersion()] *)
Definition getVersion : M (Reply VersionResponse) :=
  then2 getVersion_common
    (fun v => _ <- set_versionResponse v ;; ret (Decoded v))
    (fun e => ret (ErrorReply (processErrorResponse e))).

(** The callback of [appInfo] on the response of the device. *)
Definition appInfo_onResponse (response : Buffer.t) : AppInfo :=
  let errorCodeData := Buffer.slice_from response (Some (-2)) in
  let returnCode :=
    js_add (js_mul (Buffer.get errorCodeData (Some 0)) (Some 256))
           (Buffer.get errorCodeData (Some 1)) in
  (* [result] is filled in the first branch and is not what is returned *)
  let '(result, appName, appVersion, flagLen, flagsValue) :=
    if js_strict_neq (Buffer.get response (Some 0)) 1 then
      (Some {| err_return_code := Some 0x9001;
               err_error_message := "response format ID not recognized" |},
       "err"%string, "err"%string, Some 0, Some 0)
    else
      let appNameLen := Buffer.get response (Some 1) in
      let appName :=
        Buffer.toString_ascii
          (Buffer.slice response (Some 2) (js_add (Some 2) appNameLen)) in
      let idx := js_add (Some 2) appNameLen in
      let appVersionLen := Buffer.get response idx in
      let idx := js_add idx (Some 1) in
      let appVersion :=
        Buffer.toString_ascii
          (Buffer.slice response idx (js_add idx appVersionLen)) in
      let idx := js_add idx appVersionLen in
      let appFlagsLen := Buffer.get response idx in
      let idx := js_add idx (Some 1) in
      (@None ErrorResponse, appName, appVersion, appFlagsLen,
       Buffer.get response idx)
  in
  {| app_return_code := returnCode;
     app_error_message := errorCodeToString returnCode;
     appName := appName;
     appVersion := appVersion;
     flagLen := flagLen;
     flagsValue := flagsValue;
     flag_recovery := negb (js_land flagsValue 1 =? 0);
     flag_signed_mcu_code := negb (js_land flagsValue 2 =? 0);
     flag_onboarded := negb (js_land flagsValue 4 =? 0);
     flag_pin_validated := negb (js_land flagsValue 128 =? 0) |}.

(** [async appInfo()].  A failure of the exchange is the rejection of the
    promise [send] returns; a [send] that throws before returning a promise
    is outside this model. *)
Definition appInfo : M (Reply AppInfo) :=
  then2 (transport_send (mkRequest 0xb0 0x01 0 0 None None))
    (fun response => ret (Decoded (appInfo_onResponse response)))
    (fun e => ret (ErrorReply (processErrorResponse e))).

(** The callback of [deviceInfo] on the response of the device. *)
Definition deviceInfo_onResponse (response : Buffer.t) : Reply DeviceInfo :=
  let errorCodeData := Buffer.slice_from response (Some (-2)) in
  let returnCode :=
    js_add (js_mul (Buffer.get errorCodeData (Some 0)) (Some 256))
           (Buffer.get errorCodeData (Some 1)) in
  if js_strict_eq returnCode 0x6e00 then
    ErrorReply
      {| err_return_code := returnCode;
         err_error_message := "This command is only available in the Dashboard" |}
  else
    let targetId := Buffer.toString_hex (Buffer.slice response (Some 0) (Some 4)) in
    let pos := Some 4 in
    let secureElementVersionLen := Buffer.get response pos in
    let pos := js_add pos (Some 1) in
    let seVersion :=
      toString_utf8 (Buffer.slice response pos (js_add pos secureElementVersionLen)) in
    let pos := js_add pos secureElementVersionLen in
    let flagsLen := Buffer.get response pos in
    let pos := js_add pos (Some 1) in
    let flag := Buffer.toString_hex (Buffer.slice response pos (js_add pos flagsLen)) in
    let pos := js_add pos flagsLen in
    let mcuVersionLen := Buffer.get response pos in
    let pos := js_add pos (Some 1) in
    (* Patch issue in mcu version *)
    let tmp := Buffer.slice response pos (js_add pos mcuVersionLen) in
    let tmp :=
      if js_strict_eq (Buffer.get tmp (js_add mcuVersionLen (Some (-1)))) 0
      then Buffer.slice response pos (js_add (js_add pos mcuVersionLen) (Some (-1)))
      else tmp in
    let mcuVersion := toString_utf8 tmp in
    Decoded
      {| dev_return_code := returnCode;
         dev_error_message := errorCodeToString returnCode;
         targetId := targetId;
         seVersion := seVersion;
         flag := flag;
         mcuVersion := mcuVersion |}.

(** [async deviceInfo()].  As for [appInfo], a failure of the exchange is a
    rejected promise. *)
Definition deviceInfo : M (Reply DeviceInfo) :=
  then2 (transport_send
           (mkRequest 0xe0 0x01 0 0 (Some []) (Some [ERROR_CODE_NoError; 0x6e00])))
    (fun response => ret (deviceInfo_onResponse response))
    (fun e => ret (ErrorReply (processErrorResponse e))).

(** The callback of [getAddressAndPubKey] on the response of the device. *)
Definition getAddressAndPubKey_onResponse (response : Buffer.t) : AddressResponse :=
  let errorCodeData := Buffer.slice_from response (Some (-2)) in
  let returnCode :=
    js_add (js_mul (Buffer.get errorCodeData (Some 0)) (Some 256))
           (Buffer.get errorCodeData (Some 1)) in
  let compressedPk := Buffer.slice response (Some 0) (Some 33) in
  let bech32Address := toString_utf8 (Buffer.slice response (Some 33) (Some (-2))) in
  {| bech32_address := bech32Address;
     compressed_pk := compressedPk;
     addr_return_code := returnCode;
     addr_error_message := errorCodeToString returnCode |}.

(** [async getAddressAndPubKey(path, hrp)].  The call of the async method
    [serializePath] does not throw, so the outer [try] has nothing to
    catch. *)
Definition getAddressAndPubKey (path : Path) (hrp : option string)
  : M (Reply AddressResponse) :=
  catch_
    (then_ (serializePath path)
       (fun serializedPath =>
          h <- settle (serializeHRP hrp) ;;
          data <- settle (concat_with_path h serializedPath) ;;
          then2 (transport_send
                   (mkRequest CLA INS_GET_ADDR_SECP256K1 P1_ONLY_RETRIEVE 0
                      (Some data) (Some [ERROR_CODE_NoError])))
            (fun response => ret (Decoded (getAddressAndPubKey_onResponse response)))
            (fun e => ret (ErrorReply (processErrorResponse e)))))
    (fun err => ret (ErrorReply (processErrorResponse err))).

(** The callback of [showAddressAndPubKey] on the response of the device. *)
Definition showAddressAndPubKey_onResponse (response : Buffer.t) : AddressResponse :=
  let errorCodeData := Buffer.slice_from response (Some (-2)) in
  let returnCode :=
    js_add (js_mul (Buffer.get errorCodeData (Some 0)) (Some 256))
           (Buffer.get errorCodeData (Some 1)) in
  let compressedPk := Buffer.slice response (Some 0) (Some 33) in
  let bech32Address := toString_utf8 (Buffer.slice response (Some 33) (Some (-2))) in
  {| bech32_address := bech32Address;
     compressed_pk := compressedPk;
     addr_return_code := returnCode;
     addr_error_message := errorCodeToString returnCode |}.

(** [async showAddressAndPubKey(path, hrp)] *)
Definition showAddressAndPubKey (path : Path) (hrp : option string)
  : M (Reply AddressResponse) :=
  catch_
    (then_ (serializePath path)
       (fun serializedPath =>
          h <- settle (serializeHRP hrp) ;;
          data <- settle (concat_with_path h serializedPath) ;;
          then2 (transport_send
                   (mkRequest CLA INS_GET_ADDR_SECP256K1 P1_SHOW_ADDRESS_IN_DEVICE 0
                      (Some data) (Some [ERROR_CODE_NoError])))
            (fun response => ret (Decoded (showAddressAndPubKey_onResponse response)))
            (fun e => ret (ErrorReply (processErrorResponse e)))))
    (fun err => ret (ErrorReply (processErrorResponse err))).

(** [async signSendChunk(chunkIdx, chunkNum, chunk)] *)
Definition signSendChunk (chunkIdx chunkNum : Z) (chunk : option Chunk)
  : M SignResponse :=
  fun app =>
    match versionResponse app with
    | None => (app, Thrown_ JsTypeError)
    | Some v =>
        if js_strict_eq (ver_major v) 2
        then signSendChunkv2 chunkIdx chunkNum chunk app
        else
          (app,
           Returned {| sign_return_code := Some 0x6400;
                       sign_error_message := "App Version is not supported";
                       sign_signature := SigUndefined |})
    end.

(** The [for] loop of [sign]: [rest] are the chunks from index [i] on. *)
Fixpoint sign_loop (chunkNum : Z) (i : Z) (rest : list Chunk)
    (result : SignResponse) : M SignResponse :=
  match rest with
  | [] => ret result
  | chunk :: rest' =>
      result <- signSendChunk (1 + i) chunkNum (Some chunk) ;;
      if js_strict_neq (sign_return_code result) ERROR_CODE_NoError
      then ret result
      else sign_loop chunkNum (i + 1) rest' result
  end.

(** [async sign(path, message)] *)
Definition sign (path : Path) (message : Buffer.t) : M (Reply SignResponse) :=
  then2 (signGetChunks path message)
    (fun chunks =>
       then2 (signSendChunk 1 (Z.of_nat (List.length chunks)) (nth_error chunks 0))
         (fun response =>
            let result :=
              {| sign_return_code := sign_return_code response;
                 sign_error_message := sign_error_message response;
                 sign_signature := SigNull |} in
            result <- sign_loop (Z.of_nat (List.length chunks)) 1 (skipn 1 chunks) result ;;
            ret (Decoded
                   {| sign_return_code := sign_return_code result;
                      sign_error_message := sign_error_message result;
                      sign_signature := sign_signature result |}))
         (fun e => ret (ErrorReply (processErrorResponse e))))
    (fun e => ret (ErrorReply (processErrorResponse e))).

(** [publicKeyv2(this, data)] of [./helperV2]: a method over the
    application object, whatever it does with the transport. *)
Variable publicKeyv2 : Buffer.t -> M (Reply PublicKeyResponse).

(** [async publicKey(path)].  The [try] covers the awaited [serializePath],
    the read of [this.versionResponse.major] and the construction of the
    request; the promise of [publicKeyv2] is returned without [await], so its
    rejection is not caught. *)
Definition publicKey (path : Path) : M (Reply PublicKeyResponse) :=
  fun app =>
    match serializePath path app with
    | (app1, Returned serializedPath) =>
        match versionResponse app1 with
        | None => (app1, Returned (ErrorReply (processErrorResponse JsTypeError)))
        | Some v =>
            if js_strict_eq (ver_major v) 2
            then
              match serializeHRP (Some "thor"%string) with
              | Returned h =>
                  match concat_with_path h serializedPath with
                  | Returned data => publicKeyv2 data app1
                  | Thrown_ e => (app1, Returned (ErrorReply (processErrorResponse e)))
                  | Diverges => (app1, Diverges)
                  end
              | Thrown_ e => (app1, Returned (ErrorReply (processErrorResponse e)))
              | Diverges => (app1, Diverges)
              end
            else (app1, Returned (ErrorReply unsupported_version))
        end
    | (app1, Thrown_ e) => (app1, Returned (ErrorReply (processErrorResponse e)))
    | (app1, Diverges) => (app1, Diverges)
    end.

(** The status word [byte[-2] * 256 + byte[-1]] every decoder starts
    with, under one name for the statements below. *)
Definition statusWord (response : Buffer.t) : jsnum :=
  let errorCodeData := Buffer.slice_from response (Some (-2)) in
  js_add (js_mul (Buffer.get errorCodeData (Some 0)) (Some 256))
         (Buffer.get errorCodeData (Some 1)).

(** What the frames cut from a run of bytes must satisfy: put end to end
    they are the bytes, there are ceil(length / CHUNK_SIZE) of them, each
    but the last is full, and none is empty or longer than a chunk. *)
Definition frames_of (frames : list Buffer.t) (bytes : Buffer.t) : Prop :=
  List.concat frames = bytes /\
  Z.of_nat (List.length frames) = (Buffer.length bytes + CHUNK_SIZE - 1) / CHUNK_SIZE /\
  (forall k frame,
      nth_error frames k = Some frame -> (S k < List.length frames)%nat ->
      Buffer.length frame = CHUNK_SIZE) /\
  (forall frame, In frame frames -> 0 < Buffer.length frame <= CHUNK_SIZE).

(** The device, after the exchanges [t], answers each of the given chunks
    in turn with the success code. *)
Fixpoint all_accepted (t : list Event) (chunkNum chunkIdx : Z)
    (chunks : list Chunk) : Prop :=
  match chunks with
  | [] => True
  | chunk :: chunks' =>
      (exists r,
          device_signSendChunkv2 t chunkIdx chunkNum (Some chunk) = Returned r /\
          sign_return_code r = Some ERROR_CODE_NoError) /\
      all_accepted (t ++ [EvSignSendChunk chunkIdx chunkNum (Some chunk)])
        chunkNum (chunkIdx + 1) chunks'
  end.

(** ** Properties *)

(** *** Lists and buffers *)

Lemma Buffer_length_app (a b : Buffer.t) :
  Buffer.length (a ++ b) = Buffer.length a + Buffer.length b.
Proof. unfold Buffer.length. rewrite length_app. lia. Qed.

Lemma Buffer_length_nonneg (a : Buffer.t) : 0 <= Buffer.length a.
Proof. unfold Buffer.length. lia. Qed.

(** Reading right after a prefix. *)
Lemma Buffer_get_app (p : Buffer.t) (x : byte) (r : Buffer.t) :
  Buffer.get (p ++ x :: r) (Some (Buffer.length p)) = Some (byteZ x).
Proof.
  unfold Buffer.get, Buffer.length.
  destruct (Z.ltb_spec (Z.of_nat (List.length p)) 0); [lia|].
  rewrite Nat2Z.id, nth_error_app2 by lia.
  now rewrite Nat.sub_diag.
Qed.

(** A slice with both ends inside the buffer. *)
Lemma Buffer_slice_inside (b : Buffer.t) (s e : Z) :
  0 <= s -> 0 <= e <= Buffer.length b ->
  Buffer.slice b (Some s) (Some e) =
  firstn (Z.to_nat (e - s)) (skipn (Z.to_nat s) b).
Proof.
  intros Hs He. unfold Buffer.slice, Buffer.adjustOffset.
  destruct (Z.ltb_spec s 0); [lia|].
  destruct (Z.ltb_spec e 0); [lia|].
  destruct (Z.le_gt_cases s (Buffer.length b)).
  - rewrite (Z.min_l s), (Z.min_l e) by lia. reflexivity.
  - rewrite (Z.min_r s), (Z.min_l e) by lia.
    replace (Z.to_nat (e - Buffer.length b)) with 0%nat by lia.
    replace (Z.to_nat (e - s)) with 0%nat by lia.
    reflexivity.
Qed.

(** The field that follows a prefix. *)
Lemma Buffer_slice_app (p m r : Buffer.t) :
  Buffer.slice (p ++ m ++ r) (Some (Buffer.length p))
    (Some (Buffer.length p + Buffer.length m)) = m.
Proof.
  rewrite Buffer_slice_inside.
  - unfold Buffer.length.
    rewrite Nat2Z.id, skipn_app, skipn_all, Nat.sub_diag. simpl.
    replace (Z.to_nat (Z.of_nat (List.length p) + Z.of_nat (List.length m)
                       - Z.of_nat (List.length p)))
      with (List.length m) by lia.
    rewrite firstn_app, Nat.sub_diag, firstn_all. simpl. apply app_nil_r.
  - apply Buffer_length_nonneg.
  - rewrite !Buffer_length_app.
    pose proof (Buffer_length_nonneg p). pose proof (Buffer_length_nonneg m).
    pose proof (Buffer_length_nonneg r). lia.
Qed.

(** The two bytes [slice(-2)] picks at the end of a response. *)
Lemma Buffer_slice_last2 (p : Buffer.t) (a b : byte) :
  Buffer.slice_from (p ++ [a; b]) (Some (-2)) = [a; b].
Proof.
  unfold Buffer.slice_from, Buffer.slice, Buffer.adjustOffset.
  rewrite Buffer_length_app.
  pose proof (Buffer_length_nonneg p).
  change (Buffer.length [a; b]) with 2.
  destruct (Z.ltb_spec (-2) 0); [|lia].
  destruct (Z.ltb_spec (Buffer.length p + 2) 0); [lia|].
  rewrite Z.max_r, Z.min_l by lia.
  replace (-2 + (Buffer.length p + 2)) with (Buffer.length p) by lia.
  unfold Buffer.length.
  rewrite Nat2Z.id, skipn_app, skipn_all, Nat.sub_diag. simpl.
  replace (Z.to_nat (Z.of_nat (List.length p) + 2 - Z.of_nat (List.length p)))
    with 2%nat by lia.
  reflexivity.
Qed.

Lemma statusWord_last2 (p : Buffer.t) (a b : byte) :
  statusWord (p ++ [a; b]) = Some (byteZ a * 256 + byteZ b).
Proof. unfold statusWord. now rewrite Buffer_slice_last2. Qed.

Lemma Buffer_get_at (b p r : Buffer.t) (x : byte) (i : Z) :
  b = p ++ x :: r -> i = Buffer.length p ->
  Buffer.get b (Some i) = Some (byteZ x).
Proof. intros -> ->. apply Buffer_get_app. Qed.

Lemma Buffer_slice_at (b p m r : Buffer.t) (s e : Z) :
  b = p ++ m ++ r -> s = Buffer.length p -> e = s + Buffer.length m ->
  Buffer.slice b (Some s) (Some e) = m.
Proof. intros -> -> ->. apply Buffer_slice_app. Qed.

(** The part between a prefix and the status word, as [slice(n, -2)]
    picks it. *)
Lemma Buffer_slice_before_last2 (p m : Buffer.t) (a b : byte) :
  Buffer.slice (p ++ m ++ [a; b]) (Some (Buffer.length p)) (Some (-2)) = m.
Proof.
  transitivity (Buffer.slice (p ++ m ++ [a; b]) (Some (Buffer.length p))
                  (Some (Buffer.length p + Buffer.length m))).
  - unfold Buffer.slice. f_equal. f_equal. f_equal.
    unfold Buffer.adjustOffset. rewrite !Buffer_length_app.
    pose proof (Buffer_length_nonneg p). pose proof (Buffer_length_nonneg m).
    change (Buffer.length [a; b]) with 2.
    destruct (Z.ltb_spec (-2) 0); [|lia].
    destruct (Z.ltb_spec (Buffer.length p + Buffer.length m) 0); lia.
  - apply Buffer_slice_app.
Qed.

(** Side conditions of the two lemmas above: the buffer is the prefix
    followed by the field, and the offsets are the lengths. *)
Ltac layout :=
  first
    [ solve [ repeat match goal with x := _ |- _ => subst x end;
              simpl; repeat (rewrite <- app_assoc; simpl); reflexivity ]
    | solve [ unfold Buffer.length in *;
              repeat progress (rewrite ?length_app in *; simpl List.length in * );
              lia ] ].

Lemma byteZ_inj (x y : byte) : byteZ x = byteZ y -> x = y.
Proof.
  unfold byteZ. intros H. apply N2Z.inj in H.
  pose proof (Byte.of_to_N x) as Hx. rewrite H, Byte.of_to_N in Hx. congruence.
Qed.

(** *** serializeHRP *)

Lemma bytes_of_string_length (s : string) :
  List.length (bytes_of_string s) = String.length s.
Proof.
  unfold bytes_of_string. rewrite length_map.
  induction s as [|c s IH]; simpl; congruence.
Qed.

(** A 7-bit string that fits is written byte for byte. *)
Lemma utf8_fit_ascii7 (s : string) :
  is_ascii7 s -> forall room, (String.length s <= room)%nat ->
  Buffer.utf8_fit s room = bytes_of_string s.
Proof.
  unfold is_ascii7, bytes_of_string.
  induction s as [|c s IH]; simpl; intros H room Hroom; [reflexivity|].
  inversion H as [|? ? Hc Hs]; subst.
  unfold Buffer.utf8_char.
  destruct (N.ltb_spec (N_of_ascii c) 128) as [_|Hge]; [|lia].
  simpl List.length.
  destruct (Nat.leb_spec 1 room) as [_|Hlt]; [|lia].
  simpl. f_equal. apply IH; [assumption|lia].
Qed.

(** C6: for a 7-bit ASCII string of 3 to 83 characters, [serializeHRP]
    returns the length byte followed by the bytes of the string; for
    [null]/[undefined] and for a string shorter than 3 or longer than 83
    it throws the error "Invalid HRP" and returns no buffer. *)
Theorem serializeHRP_spec :
  (forall s : string,
      (3 <= String.length s <= 83)%nat -> is_ascii7 s ->
      exists len : byte,
        byteZ len = Z.of_nat (String.length s) /\
        serializeHRP (Some s) = Returned (len :: bytes_of_string s)) /\
  serializeHRP None = Thrown_ (JsError "Invalid HRP") /\
  (forall s : string,
      (String.length s < 3 \/ 83 < String.length s)%nat ->
      serializeHRP (Some s) = Thrown_ (JsError "Invalid HRP")).
Proof.
  split; [|split].
  - intros s [Hlo Hhi] Hascii. unfold serializeHRP.
    destruct (Nat.ltb_spec (String.length s) 3) as [?|_]; [lia|].
    destruct (Nat.ltb_spec 83 (String.length s)) as [?|_]; [lia|].
    cbn [orb].
    unfold Buffer.writeUInt8, Buffer.alloc.
    rewrite repeat_length.
    destruct (Nat.ltb_spec 0 (1 + String.length s)) as [_|?]; [|lia].
    destruct (Z.ltb_spec (Z.of_nat (String.length s)) 0) as [?|_]; [lia|].
    destruct (Byte.of_N (Z.to_N (Z.of_nat (String.length s)))) as [len|] eqn:Hlen.
    + exists len. split.
      * apply Byte.to_of_N in Hlen. unfold byteZ. rewrite Hlen. lia.
      * f_equal. unfold Buffer.write. cbn [plus repeat firstn skipn app List.length].
        rewrite repeat_length.
        rewrite utf8_fit_ascii7 by (assumption || lia).
        f_equal.
        rewrite bytes_of_string_length.
        rewrite skipn_all2 by (rewrite repeat_length; lia).
        apply app_nil_r.
    + apply Byte.of_N_None_iff in Hlen. lia.
  - reflexivity.
  - intros s Hlen. unfold serializeHRP.
    destruct (Nat.ltb_spec (String.length s) 3);
      destruct (Nat.ltb_spec 83 (String.length s)); try reflexivity; lia.
Qed.

(** *** getBech32FromPK *)

(** C10: [getBech32FromPK] throws, with the message that speaks of 31
    bytes, for every key whose length is not 33, and for a key of 33 bytes
    gives the bech32 encoding, under the prefix, of the RIPEMD-160 hash of
    the SHA-256 hash of the key. *)
Theorem getBech32FromPK_spec (hrp : string) (pk : Buffer.t) :
  (List.length pk <> 33%nat ->
   getBech32FromPK hrp pk =
   Thrown_ (JsError "expected compressed public key [31 bytes]")) /\
  (List.length pk = 33%nat ->
   getBech32FromPK hrp pk =
   bech32_encode hrp (bech32_toWords (ripemd160 (sha256 pk)))).
Proof.
  unfold getBech32FromPK, Buffer.length.
  split; intros H.
  - destruct (Z.eqb_spec (Z.of_nat (List.length pk)) 33); [lia|reflexivity].
  - destruct (Z.eqb_spec (Z.of_nat (List.length pk)) 33); [reflexivity|lia].
Qed.

(** *** serializePath *)

Lemma js_strict_eq_true (a : jsnum) (n : Z) :
  js_strict_eq a n = true <-> a = Some n.
Proof.
  destruct a as [x|]; simpl.
  - rewrite Z.eqb_eq. split; congruence.
  - split; discriminate.
Qed.

Lemma js_strict_eq_false (a : jsnum) (n : Z) :
  js_strict_eq a n = false <-> a <> Some n.
Proof.
  rewrite <- js_strict_eq_true. destruct (js_strict_eq a n); split; congruence.
Qed.

Lemma js_strict_neq_true (a : jsnum) (n : Z) :
  js_strict_neq a n = true <-> a <> Some n.
Proof.
  unfold js_strict_neq. rewrite negb_true_iff. apply js_strict_eq_false.
Qed.

Lemma js_strict_neq_false (a : jsnum) (n : Z) :
  js_strict_neq a n = false <-> a = Some n.
Proof.
  unfold js_strict_neq. rewrite negb_false_iff. apply js_strict_eq_true.
Qed.

(** C5: [serializePath] starts with the version query.  When the query
    answers with a status other than success, that answer is thrown and
    nothing is serialized; when the status is success and the major
    version is not 2, the structured error with code 0x6400 and message
    "App Version is not supported" is returned, not thrown. *)
Theorem serializePath_version_gate (path : Path) (app : App) (v : VersionResponse) :
  device_getVersion (transport app) = Returned v ->
  let app' := {| transport := transport app ++ [EvGetVersion];
                 versionResponse := Some v |} in
  (ver_return_code v <> Some ERROR_CODE_NoError ->
   serializePath path app = (app', Thrown_ (ThrownVersion v))) /\
  (ver_return_code v = Some ERROR_CODE_NoError ->
   ver_major v <> Some 2 ->
   serializePath path app =
   (app', Returned (ErrorToken
                      {| err_return_code := Some 0x6400;
                         err_error_message := "App Version is not supported" |}))).
Proof.
  intros Hv app'. unfold serializePath, then_, getVersion_common. rewrite Hv.
  cbn [set_versionResponse transport versionResponse].
  split.
  - intros Hrc. apply js_strict_neq_true in Hrc. rewrite Hrc. reflexivity.
  - intros Hrc Hmajor.
    apply js_strict_neq_false in Hrc. rewrite Hrc.
    apply js_strict_eq_false in Hmajor. rewrite Hmajor. reflexivity.
Qed.

(** *** appInfo *)

(** A response in the format the device documents: format tag 1, the
    name and the version with their length bytes, the length of the flags
    and the first flag byte. *)
Lemma appInfo_onResponse_layout (ln lv lf fv : byte) (name ver rest : Buffer.t) :
  byteZ ln = Buffer.length name ->
  byteZ lv = Buffer.length ver ->
  let response := x01 :: ln :: name ++ lv :: ver ++ lf :: fv :: rest in
  appInfo_onResponse response =
  {| app_return_code := statusWord response;
     app_error_message := errorCodeToString (statusWord response);
     appName := Buffer.toString_ascii name;
     appVersion := Buffer.toString_ascii ver;
     flagLen := Some (byteZ lf);
     flagsValue := Some (byteZ fv);
     flag_recovery := negb (Z.land (byteZ fv) 1 =? 0);
     flag_signed_mcu_code := negb (Z.land (byteZ fv) 2 =? 0);
     flag_onboarded := negb (Z.land (byteZ fv) 4 =? 0);
     flag_pin_validated := negb (Z.land (byteZ fv) 128 =? 0) |}.
Proof.
  intros Hln Hlv response. unfold appInfo_onResponse.
  fold (statusWord response).
  pose proof (Buffer_length_nonneg name) as Hn.
  pose proof (Buffer_length_nonneg ver) as Hv.
  replace (Buffer.get response (Some 0)) with (Some 1) by reflexivity.
  replace (Buffer.get response (Some 1)) with (Some (byteZ ln)) by reflexivity.
  cbn [js_strict_neq js_strict_eq Z.eqb Pos.eqb negb js_add].
  rewrite (Buffer_slice_at response [x01; ln] name (lv :: ver ++ lf :: fv :: rest))
    by layout.
  rewrite (Buffer_get_at response ([x01; ln] ++ name) (ver ++ lf :: fv :: rest) lv)
    by layout.
  cbn [js_add].
  rewrite (Buffer_slice_at response ([x01; ln] ++ name ++ [lv]) ver (lf :: fv :: rest))
    by layout.
  rewrite (Buffer_get_at response ([x01; ln] ++ name ++ lv :: ver) (fv :: rest) lf)
    by layout.
  rewrite (Buffer_get_at response ([x01; ln] ++ name ++ lv :: ver ++ [lf]) rest fv)
    by layout.
  reflexivity.
Qed.

(** C3: at the response [02 90 00], whose format tag is not 1, the record
    [appInfo] returns carries the status word 0x9000 of the response and
    its message, not the code 0x9001, next to the placeholders "err". *)
Theorem appInfo_unrecognized_format_keeps_status :
  let r := appInfo_onResponse [x02; x90; x00] in
  app_return_code r = Some 0x9000 /\
  app_return_code r <> Some 0x9001 /\
  app_error_message r = errorCodeToString (Some 0x9000) /\
  appName r = "err"%string /\
  appVersion r = "err"%string.
Proof. cbv zeta. repeat split. discriminate. Qed.

(** The same for every response whose first byte is not 1: the code
    returned is the status word of the response. *)
Lemma appInfo_unrecognized_format (response : Buffer.t) :
  Buffer.get response (Some 0) <> Some 1 ->
  let r := appInfo_onResponse response in
  app_return_code r = statusWord response /\
  app_error_message r = errorCodeToString (statusWord response) /\
  appName r = "err"%string /\
  appVersion r = "err"%string.
Proof.
  intros H. apply js_strict_neq_true in H.
  unfold appInfo_onResponse. rewrite H. repeat split.
Qed.

(** C4: for the response with format tag 1, name "abc", version "1.0" and
    flag byte 0x85, whatever the length byte of the flags and the bytes
    after the flag byte, the record has flag_recovery = true,
    flag_signed_mcu_code = false, flag_onboarded = true and
    flag_pin_validated = true: the tests of the flag byte against the masks
    0x01, 0x02, 0x04 and 0x80. *)
Theorem appInfo_flags_0x85 (lf : byte) (rest : Buffer.t) :
  let r := appInfo_onResponse
             ([x01; x03; x61; x62; x63; x03; x31; x2e; x30; lf; x85] ++ rest) in
  appName r = "abc"%string /\
  appVersion r = "1.0"%string /\
  flagsValue r = Some 0x85 /\
  flag_recovery r = negb (Z.land 0x85 0x01 =? 0) /\
  flag_signed_mcu_code r = negb (Z.land 0x85 0x02 =? 0) /\
  flag_onboarded r = negb (Z.land 0x85 0x04 =? 0) /\
  flag_pin_validated r = negb (Z.land 0x85 0x80 =? 0) /\
  flag_recovery r = true /\
  flag_signed_mcu_code r = false /\
  flag_onboarded r = true /\
  flag_pin_validated r = true.
Proof.
  cbv zeta.
  pose proof (appInfo_onResponse_layout x03 x03 lf x85
                [x61; x62; x63] [x31; x2e; x30] rest eq_refl eq_refl) as H.
  cbv zeta in H. cbn [app] in *. rewrite H. cbn. repeat split.
Qed.

(** *** deviceInfo *)

(** The fields of a device-information response, the MCU version left as
    the slice the decoder takes first. *)
Lemma deviceInfo_fields (tid se fl mcu rest : Buffer.t) (lse lfl lm : byte) :
  Buffer.length tid = 4 ->
  byteZ lse = Buffer.length se ->
  byteZ lfl = Buffer.length fl ->
  byteZ lm = Buffer.length mcu ->
  let response := tid ++ lse :: se ++ lfl :: fl ++ lm :: mcu ++ rest in
  statusWord response <> Some 0x6e00 ->
  deviceInfo_onResponse response =
  Decoded
    {| dev_return_code := statusWord response;
       dev_error_message := errorCodeToString (statusWord response);
       targetId := Buffer.toString_hex tid;
       seVersion := toString_utf8 se;
       flag := Buffer.toString_hex fl;
       mcuVersion :=
         toString_utf8
           (if js_strict_eq (Buffer.get mcu (Some (Buffer.length mcu + -1))) 0
            then Buffer.slice response
                   (Some (5 + Buffer.length se + 1 + Buffer.length fl + 1))
                   (Some (5 + Buffer.length se + 1 + Buffer.length fl + 1
                          + Buffer.length mcu + -1))
            else mcu) |}.
Proof.
  intros Htid Hse Hfl Hm response Hstatus.
  unfold deviceInfo_onResponse. fold (statusWord response).
  apply js_strict_eq_false in Hstatus. rewrite Hstatus.
  rewrite (Buffer_slice_at response [] tid (lse :: se ++ lfl :: fl ++ lm :: mcu ++ rest))
    by layout.
  rewrite (Buffer_get_at response tid (se ++ lfl :: fl ++ lm :: mcu ++ rest) lse)
    by layout.
  cbn [js_add]. rewrite Hse.
  rewrite (Buffer_slice_at response (tid ++ [lse]) se (lfl :: fl ++ lm :: mcu ++ rest))
    by layout.
  rewrite (Buffer_get_at response (tid ++ lse :: se) (fl ++ lm :: mcu ++ rest) lfl)
    by layout.
  cbn [js_add]. rewrite Hfl.
  rewrite (Buffer_slice_at response (tid ++ lse :: se ++ [lfl]) fl (lm :: mcu ++ rest))
    by layout.
  rewrite (Buffer_get_at response (tid ++ lse :: se ++ lfl :: fl) (mcu ++ rest) lm)
    by layout.
  cbn [js_add]. rewrite Hm.
  rewrite (Buffer_slice_at response (tid ++ lse :: se ++ lfl :: fl ++ [lm]) mcu rest)
    by layout.
  reflexivity.
Qed.

(** C7: in a device-information response decoded past the status check,
    an MCU-version field that ends in a zero byte is decoded without that
    one byte, and a field that does not end in a zero byte is decoded as it
    is. *)
Theorem deviceInfo_mcuVersion (tid se fl mcu rest : Buffer.t) (lse lfl lm : byte) :
  Buffer.length tid = 4 ->
  byteZ lse = Buffer.length se ->
  byteZ lfl = Buffer.length fl ->
  byteZ lm = Buffer.length mcu ->
  let response := tid ++ lse :: se ++ lfl :: fl ++ lm :: mcu ++ rest in
  statusWord response <> Some 0x6e00 ->
  exists d : DeviceInfo,
    deviceInfo_onResponse response = Decoded d /\
    (forall m, mcu = m ++ [x00] -> mcuVersion d = toString_utf8 m) /\
    ((forall m, mcu <> m ++ [x00]) -> mcuVersion d = toString_utf8 mcu).
Proof.
  intros Htid Hse Hfl Hm response Hstatus.
  pose proof (deviceInfo_fields tid se fl mcu rest lse lfl lm Htid Hse Hfl Hm Hstatus)
    as Hfields.
  fold response in Hfields. rewrite Hfields.
  eexists. split; [reflexivity|]. cbn [mcuVersion]. split.
  - intros m ->.
    rewrite (Buffer_get_at (m ++ [x00]) m [] x00) by layout.
    change (js_strict_eq (Some (byteZ x00)) 0) with true. cbv iota.
    f_equal.
    apply (Buffer_slice_at _ (tid ++ lse :: se ++ lfl :: fl ++ [lm]) m (x00 :: rest));
      layout.
  - intros Hlast.
    destruct (js_strict_eq (Buffer.get mcu (Some (Buffer.length mcu + -1))) 0) eqn:E;
      [exfalso|reflexivity].
    apply js_strict_eq_true in E.
    destruct (exists_last (l := mcu)) as (m & b & ->).
    + intros ->. discriminate E.
    + rewrite (Buffer_get_at (m ++ [b]) m [] b) in E by layout.
      injection E as E. apply (Hlast m). f_equal. f_equal.
      now apply byteZ_inj.
Qed.

(** *** getAddressAndPubKey and showAddressAndPubKey *)

Lemma getAddressAndPubKey_onResponse_layout (pk addr : Buffer.t) (sw1 sw2 : byte) :
  Buffer.length pk = 33 ->
  getAddressAndPubKey_onResponse (pk ++ addr ++ [sw1; sw2]) =
  {| bech32_address := toString_utf8 addr;
     compressed_pk := pk;
     addr_return_code := Some (byteZ sw1 * 256 + byteZ sw2);
     addr_error_message := errorCodeToString (Some (byteZ sw1 * 256 + byteZ sw2)) |}.
Proof.
  intros Hpk. unfold getAddressAndPubKey_onResponse.
  fold (statusWord (pk ++ addr ++ [sw1; sw2])).
  replace (statusWord (pk ++ addr ++ [sw1; sw2]))
    with (Some (byteZ sw1 * 256 + byteZ sw2))
    by (rewrite app_assoc; symmetry; apply statusWord_last2).
  rewrite (Buffer_slice_at _ [] pk (addr ++ [sw1; sw2]) 0 33) by layout.
  rewrite <- Hpk, Buffer_slice_before_last2. reflexivity.
Qed.

(** C8: for a response made of a 33-byte compressed public key, a 7-bit
    ASCII address and the two status bytes, the address decode returns the
    first 33 bytes as the key, the text of the bytes between byte 33 and
    the last two as the address, and byte[-2] * 256 + byte[-1] as the
    return code.  [buf.toString()] is assumed to read 7-bit bytes as
    ASCII, as UTF-8 does. *)
Theorem address_decode (pk addr : Buffer.t) (sw1 sw2 : byte) :
  (forall b, is_7bit b -> toString_utf8 b = ascii_text b) ->
  Buffer.length pk = 33 ->
  is_7bit addr ->
  let response := pk ++ addr ++ [sw1; sw2] in
  let r := getAddressAndPubKey_onResponse response in
  compressed_pk r = firstn 33 response /\
  compressed_pk r = pk /\
  bech32_address r = ascii_text addr /\
  addr_return_code r = Some (byteZ sw1 * 256 + byteZ sw2).
Proof.
  intros Hutf8 Hpk Haddr response r. subst r response.
  rewrite getAddressAndPubKey_onResponse_layout by assumption.
  cbn [compressed_pk bech32_address addr_return_code].
  repeat split.
  - replace 33%nat with (List.length pk) by (unfold Buffer.length in Hpk; lia).
    now rewrite firstn_app, Nat.sub_diag, firstn_all, app_nil_r.
  - now apply Hutf8.
Qed.

(** The whole operation around that decode: the path and the prefix are
    serialized, one request with p1 = ONLY_RETRIEVE goes to the device,
    and its response is decoded. *)
Lemma getAddressAndPubKey_run (path : Path) (hrp : option string) (app app1 : App)
    (sp h response : Buffer.t) :
  serializePath path app = (app1, Returned (Bytes sp)) ->
  serializeHRP hrp = Returned h ->
  let request :=
    mkRequest CLA INS_GET_ADDR_SECP256K1 P1_ONLY_RETRIEVE 0
      (Some (h ++ sp)) (Some [ERROR_CODE_NoError]) in
  device_send (transport app1) request = Returned response ->
  getAddressAndPubKey path hrp app =
  ({| transport := transport app1 ++ [EvSend request];
      versionResponse := versionResponse app1 |},
   Returned (Decoded (getAddressAndPubKey_onResponse response))).
Proof.
  intros Hpath Hhrp request Hsend.
  unfold getAddressAndPubKey, catch_, then2, then_, settle, transport_send.
  rewrite Hpath, Hhrp. cbn [concat_with_path].
  subst request. unfold Buffer.t in *. rewrite Hsend. reflexivity.
Qed.

(** C9: on a device whose answer to a request does not depend on p1,
    [getAddressAndPubKey] and [showAddressAndPubKey] give the same result
    and leave the same cached version.  When the path and the prefix
    serialize, each of them sends, after the version query, one address
    request with the same class, instruction, p2, data and accepted status,
    and with p1 = ONLY_RETRIEVE in the first and p1 = SHOW_ADDRESS_IN_DEVICE
    in the second; otherwise neither sends an address request.  So the
    exchanges of the two are the same except for that one byte. *)
Theorem getAddress_showAddress_differ_in_p1 (path : Path) (hrp : option string)
    (app : App) :
  (forall t cla ins p2 data statusList,
      device_send t (mkRequest cla ins P1_SHOW_ADDRESS_IN_DEVICE p2 data statusList) =
      device_send t (mkRequest cla ins P1_ONLY_RETRIEVE p2 data statusList)) ->
  let '(app_get, result_get) := getAddressAndPubKey path hrp app in
  let '(app_show, result_show) := showAddressAndPubKey path hrp app in
  result_get = result_show /\
  versionResponse app_get = versionResponse app_show /\
  Forall2 (same_up_to_p1 P1_ONLY_RETRIEVE P1_SHOW_ADDRESS_IN_DEVICE)
    (transport app_get) (transport app_show) /\
  ((exists (app1 : App) (sp h : Buffer.t),
       serializePath path app = (app1, Returned (Bytes sp)) /\
       serializeHRP hrp = Returned h /\
       transport app_get =
         transport app1
           ++ [EvSend (mkRequest CLA INS_GET_ADDR_SECP256K1 P1_ONLY_RETRIEVE 0
                         (Some (h ++ sp)) (Some [ERROR_CODE_NoError]))] /\
       transport app_show =
         transport app1
           ++ [EvSend (mkRequest CLA INS_GET_ADDR_SECP256K1 P1_SHOW_ADDRESS_IN_DEVICE 0
                         (Some (h ++ sp)) (Some [ERROR_CODE_NoError]))]) \/
   ((forall sp h,
        ~ (snd (serializePath path app) = Returned (Bytes sp) /\
           serializeHRP hrp = Returned h)) /\
    transport app_get = transport (fst (serializePath path app)) /\
    transport app_show = transport (fst (serializePath path app)))).
Proof.
  intros Hdevice.
  assert (Hsame : forall t : list Event,
             Forall2 (same_up_to_p1 P1_ONLY_RETRIEVE P1_SHOW_ADDRESS_IN_DEVICE) t t).
  { induction t; constructor; [constructor|assumption]. }
  unfold getAddressAndPubKey, showAddressAndPubKey, showAddressAndPubKey_onResponse,
    catch_, then2, then_, settle, ret, transport_send.
  destruct (serializePath path app) as [app1 [serializedPath|e|]]; cbn [fst snd].
  - destruct (serializeHRP hrp) as [h|e|].
    + destruct serializedPath as [sp|token]; cbn [concat_with_path].
      * cbn [transport versionResponse].
        rewrite Hdevice.
        assert (Htrace :
                  Forall2 (same_up_to_p1 P1_ONLY_RETRIEVE P1_SHOW_ADDRESS_IN_DEVICE)
                    (transport app1 ++
                     [EvSend (mkRequest CLA INS_GET_ADDR_SECP256K1 P1_ONLY_RETRIEVE 0
                                (Some (h ++ sp)) (Some [ERROR_CODE_NoError]))])
                    (transport app1 ++
                     [EvSend (mkRequest CLA INS_GET_ADDR_SECP256K1
                                P1_SHOW_ADDRESS_IN_DEVICE 0
                                (Some (h ++ sp)) (Some [ERROR_CODE_NoError]))])).
        { apply Forall2_app; [apply Hsame|]. constructor; constructor. }
        assert (Hsent :
                  exists (app1' : App) (sp' h' : Buffer.t),
                    (app1, Returned (Bytes sp)) = (app1', Returned (Bytes sp')) /\
                    Returned h = Returned h' /\
                    transport app1 ++
                      [EvSend (mkRequest CLA INS_GET_ADDR_SECP256K1 P1_ONLY_RETRIEVE 0
                                 (Some (h ++ sp)) (Some [ERROR_CODE_NoError]))] =
                    transport app1' ++
                      [EvSend (mkRequest CLA INS_GET_ADDR_SECP256K1 P1_ONLY_RETRIEVE 0
                                 (Some (h' ++ sp')) (Some [ERROR_CODE_NoError]))] /\
                    transport app1 ++
                      [EvSend (mkRequest CLA INS_GET_ADDR_SECP256K1
                                 P1_SHOW_ADDRESS_IN_DEVICE 0
                                 (Some (h ++ sp)) (Some [ERROR_CODE_NoError]))] =
                    transport app1' ++
                      [EvSend (mkRequest CLA INS_GET_ADDR_SECP256K1
                                 P1_SHOW_ADDRESS_IN_DEVICE 0
                                 (Some (h' ++ sp')) (Some [ERROR_CODE_NoError]))]).
        { exists app1, sp, h. repeat split. }
        destruct (device_send _ _) as [response|e|]; cbn [transport versionResponse];
          repeat split; auto.
      * repeat split; auto. right. repeat split.
        intros sp h' [H _]. discriminate H.
    + repeat split; auto. right. repeat split.
      intros sp h [_ H]. discriminate H.
    + repeat split; auto. right. repeat split.
      intros sp h [_ H]. discriminate H.
  - repeat split; auto. right. repeat split.
    intros sp h [H _]. discriminate H.
  - repeat split; auto. right. repeat split.
    intros sp h [H _]. discriminate H.
Qed.

(** *** signGetChunks *)

Lemma frames_of_nil : 0 < CHUNK_SIZE -> frames_of [] [].
Proof.
  intros HC. unfold frames_of. split; [reflexivity|]. split; [|split].
  - simpl. change (Buffer.length []) with 0. rewrite Z.div_small; lia.
  - intros k frame Hk. destruct k; discriminate.
  - intros frame [].
Qed.

(** One more frame in front: a full window, or all that is left. *)
Lemma frames_of_cons (rem : Buffer.t) (frames : list Buffer.t) :
  0 < CHUNK_SIZE -> rem <> [] ->
  frames_of frames (skipn (Z.to_nat CHUNK_SIZE) rem) ->
  frames_of (firstn (Z.to_nat CHUNK_SIZE) rem :: frames) rem.
Proof.
  intros HC Hrem (Hcat & Hcount & Hfull & Hall).
  assert (Hlen : (0 < List.length rem)%nat) by (destruct rem; simpl; [congruence|lia]).
  pose proof (length_skipn (Z.to_nat CHUNK_SIZE) rem) as Hskip.
  pose proof (length_firstn (Z.to_nat CHUNK_SIZE) rem) as Hfirst.
  unfold frames_of, Buffer.length in *.
  split; [|split; [|split]].
  - simpl. rewrite Hcat. apply firstn_skipn.
  - simpl List.length. rewrite Nat2Z.inj_succ, Hcount, Hskip.
    destruct (Z.le_gt_cases CHUNK_SIZE (Z.of_nat (List.length rem))).
    + replace (Z.of_nat (List.length rem - Z.to_nat CHUNK_SIZE) + CHUNK_SIZE - 1)
        with (Z.of_nat (List.length rem) - 1) by lia.
      replace (Z.of_nat (List.length rem) + CHUNK_SIZE - 1)
        with (Z.of_nat (List.length rem) - 1 + 1 * CHUNK_SIZE) by lia.
      rewrite Z.div_add by lia. lia.
    + replace (Z.of_nat (List.length rem - Z.to_nat CHUNK_SIZE)) with 0 by lia.
      rewrite Z.div_small by lia.
      change (Z.succ 0) with 1.
      apply (Z.div_unique_pos _ _ 1 (Z.of_nat (List.length rem) - 1)); lia.
  - intros k frame Hk Hlt. destruct k as [|k]; simpl in Hk.
    + injection Hk as <-. simpl in Hlt.
      destruct frames as [|f frames']; [simpl in Hlt; lia|].
      (* a further frame exists, so more than one window was left *)
      destruct (Z.le_gt_cases CHUNK_SIZE (Z.of_nat (List.length rem))).
      * rewrite Hfirst. lia.
      * exfalso.
        assert (Hnil : skipn (Z.to_nat CHUNK_SIZE) rem = [])
          by (apply skipn_all2; lia).
        rewrite Hnil in Hcat.
        assert (Hf : In f (f :: frames')) by (left; reflexivity).
        apply Hall in Hf. simpl in Hcat.
        apply app_eq_nil in Hcat as [-> _]. simpl in Hf. lia.
    + apply (Hfull k); [assumption|simpl in Hlt; lia].
  - intros frame [<-|Hin]; [|now apply Hall].
    rewrite Hfirst. lia.
Qed.

(** The loop, started at offset [i] with enough fuel, appends the frames
    of the bytes from [i] on. *)
Lemma signGetChunks_loop_frames (buffer : Buffer.t) :
  0 < CHUNK_SIZE ->
  forall (fuel : nat) (i : Z) (chunks : list Chunk),
    0 <= i ->
    (List.length (skipn (Z.to_nat i) buffer) < fuel)%nat ->
    exists frames : list Buffer.t,
      signGetChunks_loop fuel buffer i chunks = Some (chunks ++ map Bytes frames) /\
      frames_of frames (skipn (Z.to_nat i) buffer).
Proof.
  intros HC. induction fuel as [|fuel IH]; intros i chunks Hi Hfuel; [lia|].
  pose proof (length_skipn (Z.to_nat i) buffer) as Hskip.
  cbn [signGetChunks_loop]. unfold Buffer.length.
  destruct (Z.ltb_spec i (Z.of_nat (List.length buffer))) as [Hlt|Hge].
  - destruct (Z.gtb_spec i (Z.of_nat (List.length buffer))) as [?|_]; [lia|].
    set (rem := skipn (Z.to_nat i) buffer) in *.
    assert (Hrem : rem <> []).
    { intros E. rewrite E in Hskip. simpl in Hskip. lia. }
    assert (Hnext : skipn (Z.to_nat (i + CHUNK_SIZE)) buffer =
                    skipn (Z.to_nat CHUNK_SIZE) rem).
    { subst rem. rewrite skipn_skipn. f_equal. lia. }
    assert (Hslice : Buffer.slice buffer (Some i) (Some (i + CHUNK_SIZE)) =
                     firstn (Z.to_nat CHUNK_SIZE) rem).
    { unfold Buffer.slice, Buffer.adjustOffset, Buffer.length.
      destruct (Z.ltb_spec i 0); [lia|].
      destruct (Z.ltb_spec (i + CHUNK_SIZE) 0); [lia|].
      rewrite (Z.min_l i) by lia. fold rem.
      destruct (Z.le_gt_cases (i + CHUNK_SIZE) (Z.of_nat (List.length buffer))).
      - rewrite Z.min_l by lia. f_equal. lia.
      - rewrite Z.min_r by lia.
        rewrite !firstn_all2 by lia. reflexivity. }
    rewrite Hslice.
    destruct (IH (i + CHUNK_SIZE)
                (chunks ++ [Bytes (firstn (Z.to_nat CHUNK_SIZE) rem)]))
      as (frames & Hloop & Hframes); [lia| |].
    + rewrite Hnext, length_skipn. lia.
    + exists (firstn (Z.to_nat CHUNK_SIZE) rem :: frames). split.
      * rewrite Hloop, <- app_assoc. reflexivity.
      * apply frames_of_cons; [assumption..|]. now rewrite <- Hnext.
  - exists []. split.
    + simpl. now rewrite app_nil_r.
    + rewrite skipn_all2 by lia. now apply frames_of_nil.
Qed.

(** C2: with a positive chunk size and a path that serializes,
    [signGetChunks] returns 1 + ceil(L / CHUNK_SIZE) frames for a message
    of L bytes; frame 0 is the result of [serializePath]; the frames after
    it, put end to end, are the message; each of them but the last has
    exactly CHUNK_SIZE bytes, and none is empty or longer. *)
Theorem signGetChunks_frames (path : Path) (message : Buffer.t) (app app1 : App)
    (serializedPath : Chunk) :
  0 < CHUNK_SIZE ->
  serializePath path app = (app1, Returned serializedPath) ->
  exists frames : list Buffer.t,
    signGetChunks path message app =
      (app1, Returned (serializedPath :: map Bytes frames)) /\
    Z.of_nat (List.length (serializedPath :: map Bytes frames)) =
      1 + (Buffer.length message + CHUNK_SIZE - 1) / CHUNK_SIZE /\
    List.concat frames = message /\
    (forall k frame,
        nth_error frames k = Some frame -> (S k < List.length frames)%nat ->
        Buffer.length frame = CHUNK_SIZE) /\
    (forall frame, In frame frames -> 0 < Buffer.length frame <= CHUNK_SIZE).
Proof.
  intros HC Hpath.
  destruct (signGetChunks_loop_frames message HC (S (List.length message)) 0
              [serializedPath]) as (frames & Hloop & Hcat & Hcount & Hfull & Hall);
    [lia|simpl; lia|].
  simpl skipn in *.
  exists frames. repeat split; try assumption.
  - unfold signGetChunks, then_, settle. rewrite Hpath, Hloop. reflexivity.
  - simpl List.length. rewrite length_map, Nat2Z.inj_succ, Hcount. lia.
  - now apply Hall.
  - now apply Hall.
Qed.

(** *** sign *)

Lemma submissions_app (chunkNum chunkIdx : Z) (a b : list Chunk) :
  submissions chunkNum chunkIdx (a ++ b) =
  submissions chunkNum chunkIdx a ++
  submissions chunkNum (chunkIdx + Z.of_nat (List.length a)) b.
Proof.
  revert chunkIdx. induction a as [|x a IH]; intros chunkIdx; simpl.
  - now rewrite Z.add_0_r.
  - rewrite IH. do 3 f_equal. lia.
Qed.

(** A submission under protocol version 2 is one exchange. *)
Lemma signSendChunk_v2 (app : App) (v : VersionResponse) (chunkIdx chunkNum : Z)
    (chunk : option Chunk) :
  versionResponse app = Some v -> ver_major v = Some 2 ->
  signSendChunk chunkIdx chunkNum chunk app =
  ({| transport := transport app ++ [EvSignSendChunk chunkIdx chunkNum chunk];
      versionResponse := Some v |},
   device_signSendChunkv2 (transport app) chunkIdx chunkNum chunk).
Proof.
  intros Hv Hmajor. unfold signSendChunk, signSendChunkv2.
  rewrite Hv, Hmajor. reflexivity.
Qed.

(** The loop stops at the first chunk the device does not accept: the
    chunks before it and that chunk are submitted, in order, and nothing
    after it; the loop ends with the answer to that chunk. *)
Lemma sign_loop_stops (v : VersionResponse) (chunkNum : Z) (c : Chunk)
    (after : list Chunk) (r : SignResponse) :
  ver_major v = Some 2 ->
  sign_return_code r <> Some ERROR_CODE_NoError ->
  forall (before : list Chunk) (i : Z) (result : SignResponse) (app : App),
    versionResponse app = Some v ->
    all_accepted (transport app) chunkNum (1 + i) before ->
    device_signSendChunkv2
      (transport app ++ submissions chunkNum (1 + i) before)
      (1 + i + Z.of_nat (List.length before)) chunkNum (Some c) = Returned r ->
    sign_loop chunkNum i (before ++ c :: after) result app =
    ({| transport := transport app ++ submissions chunkNum (1 + i) (before ++ [c]);
        versionResponse := Some v |},
     Returned r).
Proof.
  intros Hmajor Hr. apply js_strict_neq_true in Hr.
  induction before as [|b before IH]; intros i result app Hv Hok Hc.
  - simpl in *. rewrite app_nil_r, Z.add_0_r in Hc.
    unfold then_. rewrite (signSendChunk_v2 app v) by assumption.
    rewrite Hc, Hr. reflexivity.
  - destruct Hok as ((rb & Hb & Hrb) & Hok).
    apply js_strict_neq_false in Hrb.
    cbn [List.app sign_loop]. unfold then_ at 1.
    rewrite (signSendChunk_v2 app v) by assumption.
    rewrite Hb, Hrb.
    replace (1 + i + 1) with (1 + (i + 1)) in Hok by lia.
    rewrite (IH (i + 1) rb
               {| transport := transport app ++ [EvSignSendChunk (1 + i) chunkNum (Some b)];
                  versionResponse := Some v |} eq_refl Hok).
    + cbn [transport submissions]. rewrite <- app_assoc.
      replace (1 + i + 1) with (1 + (i + 1)) by lia. reflexivity.
    + cbn [transport]. rewrite <- app_assoc. cbn [List.app].
      cbn [submissions List.length] in Hc.
      replace (1 + (i + 1) + Z.of_nat (List.length before))
        with (1 + i + Z.of_nat (S (List.length before))) by lia.
      replace (1 + (i + 1)) with (1 + i + 1) by lia. exact Hc.
Qed.

(** The whole of [sign] when a chunk after the path chunk is refused,
    whatever the answer to the path chunk was. *)
Lemma sign_stops_after_path (path : Path) (message : Buffer.t) (app app1 : App)
    (v : VersionResponse) (c0 c : Chunk) (before after : list Chunk)
    (r0 r : SignResponse) :
  signGetChunks path message app = (app1, Returned (c0 :: before ++ c :: after)) ->
  versionResponse app1 = Some v ->
  ver_major v = Some 2 ->
  let chunkNum := Z.of_nat (List.length (c0 :: before ++ c :: after)) in
  device_signSendChunkv2 (transport app1) 1 chunkNum (Some c0) = Returned r0 ->
  all_accepted (transport app1 ++ submissions chunkNum 1 [c0]) chunkNum 2 before ->
  device_signSendChunkv2
    (transport app1 ++ submissions chunkNum 1 (c0 :: before))
    (2 + Z.of_nat (List.length before)) chunkNum (Some c) = Returned r ->
  sign_return_code r <> Some ERROR_CODE_NoError ->
  sign path message app =
  ({| transport := transport app1 ++ submissions chunkNum 1 (c0 :: before ++ [c]);
      versionResponse := Some v |},
   Returned (Decoded r)).
Proof.
  intros Hchunks Hv Hmajor chunkNum H0 Hok Hc Hr.
  unfold sign, then2. rewrite Hchunks. fold chunkNum.
  cbn [nth_error skipn].
  rewrite (signSendChunk_v2 app1 v) by assumption. rewrite H0.
  unfold then_.
  rewrite (sign_loop_stops v chunkNum c after r Hmajor Hr before 1).
  - cbn [transport submissions]. rewrite <- app_assoc. cbn [List.app].
    destruct r; reflexivity.
  - reflexivity.
  - exact Hok.
  - cbn [transport]. rewrite <- app_assoc. exact Hc.
Qed.

(** The path chunk alone: one submission, and a result with the return
    code and the message of its answer and [null] for the signature. *)
Lemma sign_path_chunk_alone (path : Path) (message : Buffer.t) (app app1 : App)
    (v : VersionResponse) (c0 : Chunk) (r0 : SignResponse) :
  signGetChunks path message app = (app1, Returned [c0]) ->
  versionResponse app1 = Some v ->
  ver_major v = Some 2 ->
  device_signSendChunkv2 (transport app1) 1 1 (Some c0) = Returned r0 ->
  sign path message app =
  ({| transport := transport app1 ++ submissions 1 1 [c0];
      versionResponse := Some v |},
   Returned (Decoded
               {| sign_return_code := sign_return_code r0;
                  sign_error_message := sign_error_message r0;
                  sign_signature := SigNull |})).
Proof.
  intros Hchunks Hv Hmajor H0.
  unfold sign, then2. rewrite Hchunks.
  cbn [nth_error skipn List.length Z.of_nat Pos.of_succ_nat].
  rewrite (signSendChunk_v2 app1 v) by assumption. rewrite H0.
  reflexivity.
Qed.

(** X22: [sign] submits the chunks one after the other, numbered from 1.
    When the path chunk is the only chunk, it is submitted and the result
    carries the return code and the error message of its answer, with a null
    signature.  When the path chunk and the chunks after it are accepted up
    to a chunk that the device answers with a return code other than
    success, [sign] ends there: the exchanges are the submissions up to that
    chunk, in order, no later chunk is submitted, and the result is the
    return code, the error message and the signature field of that answer. *)
Theorem sign_stops_at_first_refused_chunk (path : Path) (message : Buffer.t)
    (app app1 : App) (v : VersionResponse) (c0 : Chunk) (r0 : SignResponse) :
  versionResponse app1 = Some v ->
  ver_major v = Some 2 ->
  (signGetChunks path message app = (app1, Returned [c0]) ->
   device_signSendChunkv2 (transport app1) 1 1 (Some c0) = Returned r0 ->
   sign path message app =
   ({| transport := transport app1 ++ submissions 1 1 [c0];
       versionResponse := Some v |},
    Returned (Decoded
                {| sign_return_code := sign_return_code r0;
                   sign_error_message := sign_error_message r0;
                   sign_signature := SigNull |}))) /\
  (forall (c : Chunk) (before after : list Chunk) (r : SignResponse),
      signGetChunks path message app = (app1, Returned (c0 :: before ++ c :: after)) ->
      let chunkNum := Z.of_nat (List.length (c0 :: before ++ c :: after)) in
      device_signSendChunkv2 (transport app1) 1 chunkNum (Some c0) = Returned r0 ->
      sign_return_code r0 = Some ERROR_CODE_NoError ->
      all_accepted (transport app1 ++ submissions chunkNum 1 [c0]) chunkNum 2 before ->
      device_signSendChunkv2
        (transport app1 ++ submissions chunkNum 1 (c0 :: before))
        (2 + Z.of_nat (List.length before)) chunkNum (Some c) = Returned r ->
      sign_return_code r <> Some ERROR_CODE_NoError ->
      sign path message app =
      ({| transport := transport app1 ++ submissions chunkNum 1 (c0 :: before ++ [c]);
          versionResponse := Some v |},
       Returned (Decoded
                   {| sign_return_code := sign_return_code r;
                      sign_error_message := sign_error_message r;
                      sign_signature := sign_signature r |}))).
Proof.
  intros Hv Hmajor. split.
  - intros Hchunks H0. now apply (sign_path_chunk_alone path message app app1 v c0 r0).
  - intros c before after r Hchunks chunkNum H0 _ Hok Hc Hr.
    rewrite (sign_stops_after_path path message app app1 v c0 c before after r0 r)
      by assumption.
    destruct r; reflexivity.
Qed.

(** ** Further properties *)

(** *** serializeHRP on every string *)

Lemma utf8_fit_length (s : string) :
  forall room, (List.length (Buffer.utf8_fit s room) <= room)%nat.
Proof.
  induction s as [|c s IH]; intros room; simpl; [lia|].
  destruct (Nat.leb_spec (List.length (Buffer.utf8_char c)) room) as [Hfits|_];
    [|simpl; lia].
  rewrite length_app. specialize (IH (room - List.length (Buffer.utf8_char c))%nat). lia.
Qed.

(** The buffer of a string within the bounds: the length byte, what
    [buf.write] stores, and the zeros of [Buffer.alloc] that stay. *)
Lemma serializeHRP_returns (s : string) :
  (3 <= String.length s <= 83)%nat ->
  exists len : byte,
    byteZ len = Z.of_nat (String.length s) /\
    serializeHRP (Some s) =
    Returned (len :: Buffer.utf8_fit s (String.length s)
                ++ repeat x00 (String.length s
                               - List.length (Buffer.utf8_fit s (String.length s)))).
Proof.
  intros [Hlo Hhi]. unfold serializeHRP.
  destruct (Nat.ltb_spec (String.length s) 3) as [?|_]; [lia|].
  destruct (Nat.ltb_spec 83 (String.length s)) as [?|_]; [lia|].
  cbn [orb]. unfold Buffer.writeUInt8, Buffer.alloc.
  rewrite repeat_length.
  destruct (Nat.ltb_spec 0 (1 + String.length s)) as [_|?]; [|lia].
  destruct (Z.ltb_spec (Z.of_nat (String.length s)) 0) as [?|_]; [lia|].
  destruct (Byte.of_N (Z.to_N (Z.of_nat (String.length s)))) as [len|] eqn:Hlen.
  - exists len. split.
    + apply Byte.to_of_N in Hlen. unfold byteZ. rewrite Hlen. lia.
    + f_equal. unfold Buffer.write. cbn [plus repeat firstn skipn List.app List.length].
      rewrite repeat_length.
      replace (S (String.length s) - 1)%nat with (String.length s) by lia.
      f_equal. f_equal.
      pose proof (utf8_fit_length s (String.length s)) as Hfit.
      set (bs := Buffer.utf8_fit s (String.length s)) in *.
      clearbody bs. clear Hlen.
      replace (String.length s) with (List.length bs + (String.length s - List.length bs))%nat
        at 1 by lia.
      rewrite repeat_app, skipn_app, repeat_length, Nat.sub_diag.
      rewrite skipn_all2 by (rewrite repeat_length; lia). reflexivity.
  - apply Byte.of_N_None_iff in Hlen. lia.
Qed.

(** X1: [serializeHRP] returns a buffer exactly for the strings of 3 to 83
    characters, ASCII or not; the buffer then has one byte more than the
    string has characters, and its first byte is that number of
    characters. *)
Theorem serializeHRP_buffer_shape (hrp : option string) :
  ((exists buf, serializeHRP hrp = Returned buf) <->
   (exists s, hrp = Some s /\ (3 <= String.length s <= 83)%nat)) /\
  (forall s buf,
      hrp = Some s -> serializeHRP hrp = Returned buf ->
      Buffer.length buf = 1 + Z.of_nat (String.length s) /\
      Buffer.get buf (Some 0) = Some (Z.of_nat (String.length s))).
Proof.
  assert (Hbounds : forall s buf, serializeHRP (Some s) = Returned buf ->
                                  (3 <= String.length s <= 83)%nat).
  { intros s buf. unfold serializeHRP.
    destruct (Nat.ltb_spec (String.length s) 3);
      destruct (Nat.ltb_spec 83 (String.length s)); cbn [orb];
      try discriminate. lia. }
  split.
  - split.
    + intros [buf Hbuf]. destruct hrp as [s|]; [|discriminate].
      exists s. split; [reflexivity|]. now apply (Hbounds s buf).
    + intros (s & -> & Hlen).
      destruct (serializeHRP_returns s Hlen) as (len & _ & ->). eauto.
  - intros s buf -> Hbuf.
    destruct (serializeHRP_returns s (Hbounds s buf Hbuf)) as (len & Hlen & Heq).
    rewrite Heq in Hbuf. injection Hbuf as <-.
    pose proof (utf8_fit_length s (String.length s)).
    split.
    + unfold Buffer.length. cbn [List.length].
      rewrite length_app, repeat_length. lia.
    + cbn. now rewrite Hlen.
Qed.

Lemma ascii7_roundtrip (c : ascii) :
  (N_of_ascii c < 128)%N ->
  ascii_of_N (N.land (Byte.to_N (byte_of_ascii c)) 127) = c.
Proof.
  destruct c as [b0 b1 b2 b3 b4 b5 b6 b7].
  destruct b7.
  - destruct b0, b1, b2, b3, b4, b5, b6; vm_compute; discriminate.
  - intros _. destruct b0, b1, b2, b3, b4, b5, b6; reflexivity.
Qed.

Lemma toString_ascii_bytes_of_string (s : string) :
  is_ascii7 s -> Buffer.toString_ascii (bytes_of_string s) = s.
Proof.
  unfold is_ascii7, Buffer.toString_ascii, bytes_of_string. intros H.
  rewrite map_map.
  rewrite <- (string_of_list_ascii_of_string s) at 2. f_equal.
  induction H as [|c l Hc Hl IH]; simpl; [reflexivity|].
  now rewrite ascii7_roundtrip, IH.
Qed.

(** X2: a 7-bit ASCII prefix is read back from its buffer: the bytes after
    the first, decoded as ASCII, are the prefix, and the first byte is its
    length; so two such prefixes with the same buffer are the same. *)
Theorem serializeHRP_roundtrip (s : string) (buf : Buffer.t) :
  is_ascii7 s ->
  serializeHRP (Some s) = Returned buf ->
  Buffer.toString_ascii (Buffer.slice_from buf (Some 1)) = s /\
  Buffer.get buf (Some 0) = Some (Z.of_nat (String.length s)) /\
  (forall s', is_ascii7 s' -> serializeHRP (Some s') = Returned buf -> s' = s).
Proof.
  assert (Hdecode : forall s buf, is_ascii7 s -> serializeHRP (Some s) = Returned buf ->
            Buffer.toString_ascii (Buffer.slice_from buf (Some 1)) = s /\
            Buffer.get buf (Some 0) = Some (Z.of_nat (String.length s))).
  { clear s buf. intros s buf Hascii Hbuf.
    assert (Hlen : (3 <= String.length s <= 83)%nat).
    { revert Hbuf. unfold serializeHRP.
      destruct (Nat.ltb_spec (String.length s) 3);
        destruct (Nat.ltb_spec 83 (String.length s)); cbn [orb];
        try discriminate. lia. }
    destruct (serializeHRP_returns s Hlen) as (len & Hbyte & Heq).
    rewrite Heq in Hbuf. injection Hbuf as <-.
    rewrite utf8_fit_ascii7 by (assumption || lia).
    rewrite bytes_of_string_length, Nat.sub_diag. cbn [repeat].
    rewrite app_nil_r. split.
    - replace (Buffer.slice_from (len :: bytes_of_string s) (Some 1))
        with (bytes_of_string s).
      + now apply toString_ascii_bytes_of_string.
      + symmetry. unfold Buffer.slice_from.
        apply (Buffer_slice_at _ [len] (bytes_of_string s) []).
        * now rewrite app_nil_r.
        * reflexivity.
        * unfold Buffer.length. cbn [List.length]. lia.
    - cbn. now rewrite Hbyte. }
  intros Hascii Hbuf.
  destruct (Hdecode s buf Hascii Hbuf) as [Htext Hfirst].
  repeat split; try assumption.
  intros s' Hascii' Hbuf'.
  destruct (Hdecode s' buf Hascii' Hbuf') as [Htext' _]. congruence.
Qed.

(** *** serializePath on every device *)

(** The run of [serializePath] under version 2. *)
Lemma serializePath_v2 (path : Path) (app : App)
    (v : VersionResponse) (b : Buffer.t) :
  device_getVersion (transport app) = Returned v ->
  ver_return_code v = Some ERROR_CODE_NoError ->
  ver_major v = Some 2 ->
  serializePathv2 path = Returned b ->
  serializePath path app =
  ({| transport := transport app ++ [EvGetVersion]; versionResponse := Some v |},
   Returned (Bytes b)).
Proof.
  intros Hv Hrc Hmajor Hb.
  apply js_strict_neq_false in Hrc. apply js_strict_eq_true in Hmajor.
  unfold serializePath, then_, getVersion_common. rewrite Hv.
  cbn [set_versionResponse transport versionResponse].
  now rewrite Hrc, Hmajor, Hb.
Qed.

(** X3: whatever the device answers, [serializePath] performs exactly one
    exchange, the version query, and the cached version is the answer when
    the query was fulfilled and is left as it was otherwise. *)
Theorem serializePath_one_exchange (path : Path) (app : App) :
  transport (fst (serializePath path app)) = transport app ++ [EvGetVersion] /\
  versionResponse (fst (serializePath path app)) =
  match device_getVersion (transport app) with
  | Returned v => Some v
  | _ => versionResponse app
  end.
Proof.
  unfold serializePath, then_, getVersion_common, set_versionResponse, settle, ret.
  destruct (device_getVersion (transport app)) as [v| |]; cbn; auto.
  destruct (js_strict_neq (ver_return_code v) ERROR_CODE_NoError); cbn; auto.
  destruct (js_strict_eq (ver_major v) 2); cbn; auto.
Qed.

(** X4: [serializePath] returns a buffer exactly when the version query is
    answered with the success code and major version 2 and [serializePathv2]
    returns that buffer. *)
Theorem serializePath_returns_bytes_iff (path : Path) (app app' : App) (b : Buffer.t) :
  serializePath path app = (app', Returned (Bytes b)) <->
  exists v : VersionResponse,
    device_getVersion (transport app) = Returned v /\
    ver_return_code v = Some ERROR_CODE_NoError /\
    ver_major v = Some 2 /\
    serializePathv2 path = Returned b /\
    app' = {| transport := transport app ++ [EvGetVersion];
              versionResponse := Some v |}.
Proof.
  unfold serializePath, then_, getVersion_common, set_versionResponse, settle, ret.
  cbn [transport versionResponse]. split.
  - destruct (device_getVersion (transport app)) as [v| |]; try discriminate.
    destruct (js_strict_neq (ver_return_code v) ERROR_CODE_NoError) eqn:Hrc;
      [discriminate|].
    destruct (js_strict_eq (ver_major v) 2) eqn:Hmajor; [|discriminate].
    apply js_strict_neq_false in Hrc. apply js_strict_eq_true in Hmajor.
    destruct (serializePathv2 path) as [b'| |]; try discriminate.
    intros H. injection H as <- <-. exists v. auto.
  - intros (v & -> & Hrc & Hmajor & -> & ->).
    apply js_strict_neq_false in Hrc. apply js_strict_eq_true in Hmajor.
    now rewrite Hrc, Hmajor.
Qed.

(** *** Failures at the facade *)

(** X5: [getVersion], [getAddressAndPubKey] and [showAddressAndPubKey]
    never reject: what the version query, the serializers or the address
    request throw or reject with is caught and ends as a returned value. *)
Theorem facade_never_rejects (path : Path) (hrp : option string) (app : App)
    (e : Thrown) :
  snd (getVersion app) <> Thrown_ e /\
  snd (getAddressAndPubKey path hrp app) <> Thrown_ e /\
  snd (showAddressAndPubKey path hrp app) <> Thrown_ e.
Proof.
  repeat split.
  - unfold getVersion, then2, then_, getVersion_common, set_versionResponse, ret.
    destruct (device_getVersion (transport app)); cbn; discriminate.
  - unfold getAddressAndPubKey, catch_, then2, then_, settle, ret, transport_send.
    destruct (serializePath path app) as [app1 [c| |]]; try (cbn; discriminate).
    destruct (serializeHRP hrp) as [h| |]; try (cbn; discriminate).
    destruct (concat_with_path h c) as [data| |]; try (cbn; discriminate).
    destruct (device_send _ _); cbn; discriminate.
  - unfold showAddressAndPubKey, catch_, then2, then_, settle, ret, transport_send.
    destruct (serializePath path app) as [app1 [c| |]]; try (cbn; discriminate).
    destruct (serializeHRP hrp) as [h| |]; try (cbn; discriminate).
    destruct (concat_with_path h c) as [data| |]; try (cbn; discriminate).
    destruct (device_send _ _); cbn; discriminate.
Qed.

(** X6: a rejected exchange of [appInfo] or [deviceInfo], and a rejected
    version query of [getVersion], is answered with [processErrorResponse] of
    what was thrown; [getVersion] then leaves the cached version as it
    was. *)
Theorem facade_rejected_exchange (app : App) (e : Thrown) :
  (device_getVersion (transport app) = Thrown_ e ->
   getVersion app =
   ({| transport := transport app ++ [EvGetVersion];
       versionResponse := versionResponse app |},
    Returned (ErrorReply (processErrorResponse e)))) /\
  (device_send (transport app) (mkRequest 0xb0 0x01 0 0 None None) = Thrown_ e ->
   snd (appInfo app) = Returned (ErrorReply (processErrorResponse e))) /\
  (device_send (transport app)
     (mkRequest 0xe0 0x01 0 0 (Some []) (Some [0x9000; 0x6e00])) = Thrown_ e ->
   snd (deviceInfo app) = Returned (ErrorReply (processErrorResponse e))).
Proof.
  repeat split.
  - intros H. unfold getVersion, then2, getVersion_common. now rewrite H.
  - intros H. unfold appInfo, then2, transport_send. now rewrite H.
  - intros H. unfold deviceInfo, then2, transport_send.
    change ERROR_CODE_NoError with 0x9000. now rewrite H.
Qed.

(** *** The address operations before the request *)

(** X7: with a prefix that is missing or has fewer than 3 or more than 83
    characters, both address operations perform the version query and nothing
    else, whatever the device answers: no address request is sent.  When
    [serializePath] returns, they resolve to [processErrorResponse] of the
    error "Invalid HRP"; when it throws, to [processErrorResponse] of what it
    threw. *)
Theorem address_invalid_hrp (path : Path) (hrp : option string) (app : App) :
  (forall s, hrp = Some s -> (String.length s < 3 \/ 83 < String.length s)%nat) ->
  (fst (getAddressAndPubKey path hrp app) = fst (serializePath path app) /\
   fst (showAddressAndPubKey path hrp app) = fst (serializePath path app) /\
   transport (fst (serializePath path app)) = transport app ++ [EvGetVersion]) /\
  (forall c,
      snd (serializePath path app) = Returned c ->
      snd (getAddressAndPubKey path hrp app) =
        Returned (ErrorReply (processErrorResponse (JsError "Invalid HRP"))) /\
      snd (showAddressAndPubKey path hrp app) =
        Returned (ErrorReply (processErrorResponse (JsError "Invalid HRP")))) /\
  (forall e,
      snd (serializePath path app) = Thrown_ e ->
      snd (getAddressAndPubKey path hrp app) =
        Returned (ErrorReply (processErrorResponse e)) /\
      snd (showAddressAndPubKey path hrp app) =
        Returned (ErrorReply (processErrorResponse e))).
Proof.
  intros Hhrp.
  assert (Hthrow : serializeHRP hrp = Thrown_ (JsError "Invalid HRP")).
  { destruct hrp as [s|]; [|reflexivity].
    specialize (Hhrp s eq_refl). unfold serializeHRP.
    destruct (Nat.ltb_spec (String.length s) 3);
      destruct (Nat.ltb_spec 83 (String.length s)); try reflexivity; lia. }
  assert (Hone : transport (fst (serializePath path app)) =
                 transport app ++ [EvGetVersion]).
  { unfold serializePath, then_, getVersion_common, set_versionResponse, settle, ret.
    destruct (device_getVersion (transport app)) as [v| |]; cbn; auto.
    destruct (js_strict_neq (ver_return_code v) ERROR_CODE_NoError); cbn; auto.
    destruct (js_strict_eq (ver_major v) 2); cbn; auto. }
  revert Hone.
  unfold getAddressAndPubKey, showAddressAndPubKey, catch_, then2, then_, settle, ret.
  rewrite Hthrow.
  destruct (serializePath path app) as [app1 [c| |]]; cbn [fst snd]; intros Hone.
  - repeat split; try assumption; intros; congruence.
  - repeat split; try assumption; intros; congruence.
  - repeat split; try assumption; intros; congruence.
Qed.

(** X8: when the version query is answered with a status other than
    success, or with success and a major version other than 2, both address
    operations stop after that one exchange: the result is
    [processErrorResponse] of the version answer in the first case and, for a
    valid prefix, of the TypeError of [Buffer.concat] in the second. *)
Theorem address_version_gate (path : Path) (hrp : option string) (app : App)
    (v : VersionResponse) :
  device_getVersion (transport app) = Returned v ->
  let app1 := {| transport := transport app ++ [EvGetVersion];
                 versionResponse := Some v |} in
  (ver_return_code v <> Some ERROR_CODE_NoError ->
   getAddressAndPubKey path hrp app =
     (app1, Returned (ErrorReply (processErrorResponse (ThrownVersion v)))) /\
   showAddressAndPubKey path hrp app =
     (app1, Returned (ErrorReply (processErrorResponse (ThrownVersion v))))) /\
  (ver_return_code v = Some ERROR_CODE_NoError ->
   ver_major v <> Some 2 ->
   forall h, serializeHRP hrp = Returned h ->
   getAddressAndPubKey path hrp app =
     (app1, Returned (ErrorReply (processErrorResponse JsTypeError))) /\
   showAddressAndPubKey path hrp app =
     (app1, Returned (ErrorReply (processErrorResponse JsTypeError)))).
Proof.
  intros Hv app1. split.
  - intros Hrc. apply js_strict_neq_true in Hrc.
    assert (Hpath : serializePath path app = (app1, Thrown_ (ThrownVersion v))).
    { unfold serializePath, then_, getVersion_common. rewrite Hv.
      cbn [set_versionResponse transport versionResponse]. now rewrite Hrc. }
    unfold getAddressAndPubKey, showAddressAndPubKey, catch_, then2, then_, ret.
    rewrite Hpath. split; reflexivity.
  - intros Hrc Hmajor h Hh.
    apply js_strict_neq_false in Hrc. apply js_strict_eq_false in Hmajor.
    assert (Hpath : serializePath path app =
                    (app1, Returned (ErrorToken unsupported_version))).
    { unfold serializePath, then_, getVersion_common. rewrite Hv.
      cbn [set_versionResponse transport versionResponse]. now rewrite Hrc, Hmajor. }
    unfold getAddressAndPubKey, showAddressAndPubKey, catch_, then2, then_, settle, ret.
    rewrite Hpath, Hh. split; reflexivity.
Qed.

(** X9: under version 2, with a path that serializes and a valid 7-bit ASCII
    prefix, [getAddressAndPubKey] performs the version query and one request
    with the class, the instruction, p1 = ONLY_RETRIEVE, p2 = 0, the data
    [length byte][prefix bytes][path bytes] and the accepted status 0x9000;
    the result is the decoded response, or [processErrorResponse] of the
    rejection of that request. *)
Theorem getAddressAndPubKey_request (path : Path) (s : string) (app : App)
    (v : VersionResponse) (sp : Buffer.t) :
  device_getVersion (transport app) = Returned v ->
  ver_return_code v = Some ERROR_CODE_NoError ->
  ver_major v = Some 2 ->
  serializePathv2 path = Returned sp ->
  (3 <= String.length s <= 83)%nat ->
  is_ascii7 s ->
  exists len : byte,
    byteZ len = Z.of_nat (String.length s) /\
    let request :=
      mkRequest CLA INS_GET_ADDR_SECP256K1 P1_ONLY_RETRIEVE 0
        (Some (len :: bytes_of_string s ++ sp)) (Some [0x9000]) in
    let run := getAddressAndPubKey path (Some s) app in
    fst run = {| transport := transport app ++ [EvGetVersion; EvSend request];
                 versionResponse := Some v |} /\
    (forall response,
        device_send (transport app ++ [EvGetVersion]) request = Returned response ->
        snd run = Returned (Decoded (getAddressAndPubKey_onResponse response))) /\
    (forall e,
        device_send (transport app ++ [EvGetVersion]) request = Thrown_ e ->
        snd run = Returned (ErrorReply (processErrorResponse e))).
Proof.
  intros Hv Hrc Hmajor Hsp Hlen Hascii.
  destruct (serializeHRP_returns s Hlen) as (len & Hbyte & Hhrp).
  rewrite utf8_fit_ascii7, bytes_of_string_length, Nat.sub_diag in Hhrp
    by (assumption || lia).
  cbn [repeat] in Hhrp. rewrite app_nil_r in Hhrp.
  exists len. split; [assumption|]. cbv zeta.
  assert (Hpath : serializePath path app =
                  ({| transport := transport app ++ [EvGetVersion];
                      versionResponse := Some v |}, Returned (Bytes sp))).
  { apply serializePath_v2; assumption. }
  unfold getAddressAndPubKey, catch_, then2, then_, settle, ret, transport_send.
  rewrite Hpath, Hhrp. cbn [concat_with_path transport versionResponse].
  change ERROR_CODE_NoError with 0x9000.
  rewrite <- app_assoc. cbn [List.app].
  destruct (device_send _ _) as [response|e|]; cbn [fst snd];
    repeat split; intros; congruence.
Qed.

(** *** The decoders on every response *)

Lemma byteZ_range (x : byte) : 0 <= byteZ x <= 255.
Proof. unfold byteZ. pose proof (Byte.to_N_bounded x). lia. Qed.

(** A response of fewer than two bytes has no status word. *)
Lemma statusWord_short (response : Buffer.t) :
  (List.length response < 2)%nat -> statusWord response = None.
Proof.
  destruct response as [|a [|b response]]; simpl; intros H; try reflexivity; lia.
Qed.

Lemma split_last2 (response : Buffer.t) :
  (2 <= List.length response)%nat ->
  exists p a b, response = p ++ [a; b].
Proof.
  intros H.
  destruct (exists_last (l := response)) as (q & b & ->).
  { intros ->. simpl in H. lia. }
  rewrite length_app in H. simpl in H.
  destruct (exists_last (l := q)) as (p & a & ->).
  { intros ->. simpl in H. lia. }
  exists p, a, b. now rewrite <- app_assoc.
Qed.

(** X10: the return code of the [appInfo] decoder and of the two address
    decoders is byte[-2] * 256 + byte[-1] of the response, a number from 0 to
    0xFFFF, whatever the bytes before it; for a response of fewer than two
    bytes it is NaN, and nothing is thrown. *)
Theorem decoders_return_code (response : Buffer.t) :
  let codes :=
    [app_return_code (appInfo_onResponse response);
     addr_return_code (getAddressAndPubKey_onResponse response);
     addr_return_code (showAddressAndPubKey_onResponse response)] in
  ((2 <= List.length response)%nat ->
   exists p a b,
     response = p ++ [a; b] /\
     0 <= byteZ a * 256 + byteZ b <= 0xFFFF /\
     Forall (fun code => code = Some (byteZ a * 256 + byteZ b)) codes) /\
  ((List.length response < 2)%nat ->
   Forall (fun code => code = None) codes).
Proof.
  assert (Hcodes :
    [app_return_code (appInfo_onResponse response);
     addr_return_code (getAddressAndPubKey_onResponse response);
     addr_return_code (showAddressAndPubKey_onResponse response)] =
    [statusWord response; statusWord response; statusWord response]).
  { unfold appInfo_onResponse.
    destruct (js_strict_neq (Buffer.get response (Some 0)) 1); reflexivity. }
  cbv zeta. rewrite Hcodes. split.
  - intros Hlen. destruct (split_last2 response Hlen) as (p & a & b & ->).
    exists p, a, b. split; [reflexivity|].
    pose proof (byteZ_range a). pose proof (byteZ_range b).
    split; [lia|]. rewrite statusWord_last2. repeat constructor.
  - intros Hlen. rewrite statusWord_short by assumption. repeat constructor.
Qed.

(** X11: a device-information response that ends in the status word 0x6e00
    is answered with that code and the message about the Dashboard, whatever
    the bytes before the status word; they are not decoded. *)
Theorem deviceInfo_dashboard_only (payload : Buffer.t) :
  deviceInfo_onResponse (payload ++ [x6e; x00]) =
  ErrorReply
    {| err_return_code := Some 0x6e00;
       err_error_message := "This command is only available in the Dashboard" |}.
Proof.
  unfold deviceInfo_onResponse.
  fold (statusWord (payload ++ [x6e; x00])).
  rewrite statusWord_last2. reflexivity.
Qed.

(** X12: a well-formed device-information response with a status word other
    than 0x6e00 is decoded field by field: the target id is the hex text of the
    first four bytes, the secure-element version the text of the first
    length-prefixed field, the flags the hex text of the second, and the
    return code the status word, with its message. *)
Theorem deviceInfo_decode (tid se fl mcu : Buffer.t) (lse lfl lm sw1 sw2 : byte) :
  Buffer.length tid = 4 ->
  byteZ lse = Buffer.length se ->
  byteZ lfl = Buffer.length fl ->
  byteZ lm = Buffer.length mcu ->
  byteZ sw1 * 256 + byteZ sw2 <> 0x6e00 ->
  exists d : DeviceInfo,
    deviceInfo_onResponse
      (tid ++ lse :: se ++ lfl :: fl ++ lm :: mcu ++ [sw1; sw2]) = Decoded d /\
    targetId d = Buffer.toString_hex tid /\
    seVersion d = toString_utf8 se /\
    flag d = Buffer.toString_hex fl /\
    dev_return_code d = Some (byteZ sw1 * 256 + byteZ sw2) /\
    dev_error_message d = errorCodeToString (Some (byteZ sw1 * 256 + byteZ sw2)).
Proof.
  intros Htid Hse Hfl Hm Hsw.
  assert (Hstatus :
            statusWord (tid ++ lse :: se ++ lfl :: fl ++ lm :: mcu ++ [sw1; sw2]) =
            Some (byteZ sw1 * 256 + byteZ sw2)).
  { replace (tid ++ lse :: se ++ lfl :: fl ++ lm :: mcu ++ [sw1; sw2])
      with ((tid ++ lse :: se ++ lfl :: fl ++ lm :: mcu) ++ [sw1; sw2])
      by (repeat (rewrite <- app_assoc; simpl); reflexivity).
    apply statusWord_last2. }
  rewrite (deviceInfo_fields tid se fl mcu [sw1; sw2] lse lfl lm Htid Hse Hfl Hm)
    by (rewrite Hstatus; congruence).
  eexists. split; [reflexivity|]. cbn [targetId seVersion flag dev_return_code
                                         dev_error_message].
  rewrite Hstatus. repeat split.
Qed.

Lemma byte_mask_testbit (x : byte) :
  negb (Z.land (byteZ x) 1 =? 0) = Z.testbit (byteZ x) 0 /\
  negb (Z.land (byteZ x) 2 =? 0) = Z.testbit (byteZ x) 1 /\
  negb (Z.land (byteZ x) 4 =? 0) = Z.testbit (byteZ x) 2 /\
  negb (Z.land (byteZ x) 128 =? 0) = Z.testbit (byteZ x) 7.
Proof. destruct x; vm_compute; repeat split. Qed.

(** X13: a well-formed application-information response (format tag 1,
    length-prefixed name and version, length of the flags, first flag byte) is
    decoded to the ASCII text of the name and of the version, the flag length
    and the flag byte; the four flags are bits 0, 1, 2 and 7 of the flag byte,
    and the other bits change nothing. *)
Theorem appInfo_decode (ln lv lf fv : byte) (name ver rest : Buffer.t) :
  byteZ ln = Buffer.length name ->
  byteZ lv = Buffer.length ver ->
  let r := appInfo_onResponse (x01 :: ln :: name ++ lv :: ver ++ lf :: fv :: rest) in
  appName r = Buffer.toString_ascii name /\
  appVersion r = Buffer.toString_ascii ver /\
  flagLen r = Some (byteZ lf) /\
  flagsValue r = Some (byteZ fv) /\
  flag_recovery r = Z.testbit (byteZ fv) 0 /\
  flag_signed_mcu_code r = Z.testbit (byteZ fv) 1 /\
  flag_onboarded r = Z.testbit (byteZ fv) 2 /\
  flag_pin_validated r = Z.testbit (byteZ fv) 7.
Proof.
  intros Hln Hlv r. subst r.
  rewrite (appInfo_onResponse_layout ln lv lf fv name ver rest Hln Hlv).
  cbn [appName appVersion flagLen flagsValue flag_recovery flag_signed_mcu_code
         flag_onboarded flag_pin_validated].
  destruct (byte_mask_testbit fv) as (H0 & H1 & H2 & H7).
  repeat split; assumption.
Qed.

(** *** sign on every device *)

(** The loop run to its last chunk: the chunks before it accepted, the last
    one answered in any way. *)
Lemma sign_loop_to_last (v : VersionResponse) (chunkNum : Z) (cl : Chunk)
    (r : SignResponse) :
  ver_major v = Some 2 ->
  forall (mid : list Chunk) (i : Z) (result : SignResponse) (app : App),
    versionResponse app = Some v ->
    all_accepted (transport app) chunkNum (1 + i) mid ->
    device_signSendChunkv2
      (transport app ++ submissions chunkNum (1 + i) mid)
      (1 + i + Z.of_nat (List.length mid)) chunkNum (Some cl) = Returned r ->
    sign_loop chunkNum i (mid ++ [cl]) result app =
    ({| transport := transport app ++ submissions chunkNum (1 + i) (mid ++ [cl]);
        versionResponse := Some v |},
     Returned r).
Proof.
  intros Hmajor.
  induction mid as [|b mid IH]; intros i result app Hv Hok Hc.
  - simpl in *. rewrite app_nil_r, Z.add_0_r in Hc.
    unfold then_. rewrite (signSendChunk_v2 app v) by assumption.
    rewrite Hc. destruct (js_strict_neq (sign_return_code r) ERROR_CODE_NoError);
      reflexivity.
  - destruct Hok as ((rb & Hb & Hrb) & Hok).
    apply js_strict_neq_false in Hrb.
    cbn [List.app sign_loop]. unfold then_ at 1.
    rewrite (signSendChunk_v2 app v) by assumption.
    rewrite Hb, Hrb.
    replace (1 + i + 1) with (1 + (i + 1)) in Hok by lia.
    rewrite (IH (i + 1) rb
               {| transport := transport app ++ [EvSignSendChunk (1 + i) chunkNum (Some b)];
                  versionResponse := Some v |} eq_refl Hok).
    + cbn [transport submissions]. rewrite <- app_assoc.
      replace (1 + i + 1) with (1 + (i + 1)) by lia. reflexivity.
    + cbn [transport]. rewrite <- app_assoc. cbn [List.app].
      cbn [submissions List.length] in Hc.
      replace (1 + (i + 1) + Z.of_nat (List.length mid))
        with (1 + i + Z.of_nat (S (List.length mid))) by lia.
      replace (1 + (i + 1)) with (1 + i + 1) by lia. exact Hc.
Qed.

(** X14: for a sequence of two chunks or more (a message that is not
    empty), under version 2: when the first chunk is answered and every chunk
    between the first and the last is accepted, [sign] submits all the
    chunks, in order, numbered 1 to n with n the number of chunks, and
    resolves to the answer to the last chunk: its return code, message and
    signature. *)
Theorem sign_runs_to_last_chunk (path : Path) (message : Buffer.t) (app app1 : App)
    (v : VersionResponse) (c0 cl : Chunk) (mid : list Chunk) (r0 r : SignResponse) :
  signGetChunks path message app = (app1, Returned (c0 :: mid ++ [cl])) ->
  versionResponse app1 = Some v ->
  ver_major v = Some 2 ->
  let chunkNum := Z.of_nat (List.length (c0 :: mid ++ [cl])) in
  device_signSendChunkv2 (transport app1) 1 chunkNum (Some c0) = Returned r0 ->
  all_accepted (transport app1 ++ submissions chunkNum 1 [c0]) chunkNum 2 mid ->
  device_signSendChunkv2
    (transport app1 ++ submissions chunkNum 1 (c0 :: mid))
    (2 + Z.of_nat (List.length mid)) chunkNum (Some cl) = Returned r ->
  sign path message app =
  ({| transport := transport app1 ++ submissions chunkNum 1 (c0 :: mid ++ [cl]);
      versionResponse := Some v |},
   Returned (Decoded r)).
Proof.
  intros Hchunks Hv Hmajor chunkNum H0 Hok Hc.
  unfold sign, then2. rewrite Hchunks. fold chunkNum.
  cbn [nth_error skipn].
  rewrite (signSendChunk_v2 app1 v) by assumption. rewrite H0.
  unfold then_.
  rewrite (sign_loop_to_last v chunkNum cl r Hmajor mid 1).
  - cbn [transport submissions]. rewrite <- app_assoc. cbn [List.app].
    destruct r; reflexivity.
  - reflexivity.
  - exact Hok.
  - cbn [transport]. rewrite <- app_assoc. exact Hc.
Qed.

(** What the loop leaves on the transport, whatever the device does: the
    submissions of the first [k] of its chunks. *)
Lemma sign_loop_prefix (v : VersionResponse) (chunkNum : Z) :
  ver_major v = Some 2 ->
  forall (rest : list Chunk) (i : Z) (result : SignResponse) (app : App),
    versionResponse app = Some v ->
    exists k : nat,
      (k <= List.length rest)%nat /\
      fst (sign_loop chunkNum i rest result app) =
      {| transport := transport app ++ submissions chunkNum (1 + i) (firstn k rest);
         versionResponse := Some v |}.
Proof.
  intros Hmajor.
  induction rest as [|c rest IH]; intros i result app Hv.
  - exists 0%nat. split; [simpl; lia|].
    cbn. rewrite app_nil_r. destruct app; simpl in *; congruence.
  - cbn [sign_loop]. unfold then_ at 1.
    rewrite (signSendChunk_v2 app v) by assumption.
    destruct (device_signSendChunkv2 (transport app) (1 + i) chunkNum (Some c))
      as [r|e|].
    + destruct (js_strict_neq (sign_return_code r) ERROR_CODE_NoError).
      * exists 1%nat. split; [simpl; lia|]. reflexivity.
      * destruct (IH (i + 1) r
                    {| transport := transport app
                                    ++ [EvSignSendChunk (1 + i) chunkNum (Some c)];
                       versionResponse := Some v |} eq_refl) as (k & Hk & Hrun).
        exists (S k). split; [simpl; lia|].
        rewrite Hrun. cbn [transport firstn submissions].
        rewrite <- app_assoc.
        replace (1 + i + 1) with (1 + (i + 1)) by lia. reflexivity.
    + exists 1%nat. split; [simpl; lia|]. reflexivity.
    + exists 1%nat. split; [simpl; lia|]. reflexivity.
Qed.

(** X15: under version 2, whatever the device answers, throws or leaves
    unanswered, what [sign] has submitted when it ends is a non-empty prefix of
    the chunk sequence: chunk k goes out as number k with the same total
    n, nothing is skipped, repeated or reordered. *)
Theorem sign_submits_a_prefix (path : Path) (message : Buffer.t) (app app1 : App)
    (v : VersionResponse) (c0 : Chunk) (rest : list Chunk) :
  signGetChunks path message app = (app1, Returned (c0 :: rest)) ->
  versionResponse app1 = Some v ->
  ver_major v = Some 2 ->
  let chunks := c0 :: rest in
  exists k : nat,
    (1 <= k <= List.length chunks)%nat /\
    fst (sign path message app) =
    {| transport := transport app1
                    ++ submissions (Z.of_nat (List.length chunks)) 1 (firstn k chunks);
       versionResponse := Some v |}.
Proof.
  intros Hchunks Hv Hmajor chunks.
  unfold sign, then2. rewrite Hchunks. fold chunks.
  set (chunkNum := Z.of_nat (List.length chunks)).
  cbn [chunks nth_error skipn].
  rewrite (signSendChunk_v2 app1 v) by assumption.
  destruct (device_signSendChunkv2 (transport app1) 1 chunkNum (Some c0)) as [r0|e|].
  - unfold then_.
    set (result0 := {| sign_return_code := sign_return_code r0;
                       sign_error_message := sign_error_message r0;
                       sign_signature := SigNull |}).
    destruct (sign_loop_prefix v chunkNum Hmajor rest 1 result0
                {| transport := transport app1 ++ [EvSignSendChunk 1 chunkNum (Some c0)];
                   versionResponse := Some v |} eq_refl) as (k & Hk & Hrun).
    exists (S k). split; [simpl; lia|].
    destruct (sign_loop chunkNum 1 rest result0 _) as [app2 [r| |]];
      cbn [fst] in *; subst app2; cbn [transport firstn submissions];
      rewrite <- app_assoc; reflexivity.
  - exists 1%nat. split; [simpl; lia|]. reflexivity.
  - exists 1%nat. split; [simpl; lia|]. reflexivity.
Qed.

(** The chunk array under a given outcome of [serializePath]. *)
Lemma signGetChunks_after_path (path : Path) (message : Buffer.t) (app app1 : App)
    (c0 : Chunk) :
  0 < CHUNK_SIZE ->
  serializePath path app = (app1, Returned c0) ->
  exists frames : list Buffer.t,
    signGetChunks path message app = (app1, Returned (c0 :: map Bytes frames)) /\
    frames_of frames message.
Proof.
  intros HC Hpath.
  destruct (signGetChunks_loop_frames message HC (S (List.length message)) 0 [c0])
    as (frames & Hloop & Hframes); [lia|simpl; lia|].
  exists frames. split; [|exact Hframes].
  unfold signGetChunks, then_, settle. rewrite Hpath, Hloop. reflexivity.
Qed.

(** X16: when the version query is answered with success and a major version
    other than 2, [sign] sends nothing to the device after that query: no
    chunk is submitted, and the result has return code 0x6400 and the message
    "App Version is not supported"; its signature is null for an empty
    message and undefined otherwise. *)
Theorem sign_unsupported_version (path : Path) (message : Buffer.t) (app : App)
    (v : VersionResponse) :
  0 < CHUNK_SIZE ->
  device_getVersion (transport app) = Returned v ->
  ver_return_code v = Some ERROR_CODE_NoError ->
  ver_major v <> Some 2 ->
  sign path message app =
  ({| transport := transport app ++ [EvGetVersion]; versionResponse := Some v |},
   Returned (Decoded
               {| sign_return_code := Some 0x6400;
                  sign_error_message := "App Version is not supported";
                  sign_signature :=
                    match message with
                    | [] => SigNull
                    | _ :: _ => SigUndefined
                    end |})).
Proof.
  intros HC Hv Hrc Hmajor.
  apply js_strict_neq_false in Hrc. apply js_strict_eq_false in Hmajor.
  set (app1 := {| transport := transport app ++ [EvGetVersion];
                  versionResponse := Some v |}).
  assert (Hpath : serializePath path app =
                  (app1, Returned (ErrorToken unsupported_version))).
  { unfold serializePath, then_, getVersion_common. rewrite Hv.
    cbn [set_versionResponse transport versionResponse]. now rewrite Hrc, Hmajor. }
  destruct (signGetChunks_after_path path message app app1 _ HC Hpath)
    as (frames & Hchunks & Hcat & _ & _ & Hall).
  unfold sign, then2. rewrite Hchunks.
  cbn [nth_error skipn]. unfold signSendChunk at 1.
  cbn [app1 versionResponse]. rewrite Hmajor. fold app1.
  unfold then_.
  destruct frames as [|f frames].
  - simpl in Hcat. subst message. reflexivity.
  - cbn [map sign_loop]. unfold then_, signSendChunk.
    cbn [app1 versionResponse]. rewrite Hmajor. fold app1.
    cbn [sign_return_code js_strict_neq js_strict_eq ERROR_CODE_NoError Z.eqb Pos.eqb negb ret].
    destruct message as [|x message]; [|reflexivity].
    exfalso. simpl in Hcat. apply app_eq_nil in Hcat as [-> _].
    specialize (Hall [] (or_introl eq_refl)).
    unfold Buffer.length in Hall. simpl in Hall. lia.
Qed.

(** X17: when the version query is answered with a status other than
    success, or is rejected, [sign] submits no chunk: it resolves to
    [processErrorResponse] of the version answer, or of what was thrown. *)
Theorem sign_version_query_fails (path : Path) (message : Buffer.t) (app : App) :
  (forall v,
      device_getVersion (transport app) = Returned v ->
      ver_return_code v <> Some ERROR_CODE_NoError ->
      sign path message app =
      ({| transport := transport app ++ [EvGetVersion]; versionResponse := Some v |},
       Returned (ErrorReply (processErrorResponse (ThrownVersion v))))) /\
  (forall e,
      device_getVersion (transport app) = Thrown_ e ->
      sign path message app =
      ({| transport := transport app ++ [EvGetVersion];
          versionResponse := versionResponse app |},
       Returned (ErrorReply (processErrorResponse e)))).
Proof.
  split.
  - intros v Hv Hrc. apply js_strict_neq_true in Hrc.
    unfold sign, then2, signGetChunks, serializePath, then_, getVersion_common.
    rewrite Hv. cbn [set_versionResponse transport versionResponse].
    now rewrite Hrc.
  - intros e He.
    unfold sign, then2, signGetChunks, serializePath, then_, getVersion_common.
    now rewrite He.
Qed.

(** The loop at a submission that rejects: the rejection is the outcome of
    the loop. *)
Lemma sign_loop_throws (v : VersionResponse) (chunkNum : Z) (c : Chunk)
    (after : list Chunk) (e : Thrown) :
  ver_major v = Some 2 ->
  forall (before : list Chunk) (i : Z) (result : SignResponse) (app : App),
    versionResponse app = Some v ->
    all_accepted (transport app) chunkNum (1 + i) before ->
    device_signSendChunkv2
      (transport app ++ submissions chunkNum (1 + i) before)
      (1 + i + Z.of_nat (List.length before)) chunkNum (Some c) = Thrown_ e ->
    sign_loop chunkNum i (before ++ c :: after) result app =
    ({| transport := transport app ++ submissions chunkNum (1 + i) (before ++ [c]);
        versionResponse := Some v |},
     Thrown_ e).
Proof.
  intros Hmajor.
  induction before as [|b before IH]; intros i result app Hv Hok Hc.
  - simpl in *. rewrite app_nil_r, Z.add_0_r in Hc.
    unfold then_. rewrite (signSendChunk_v2 app v) by assumption.
    rewrite Hc. reflexivity.
  - destruct Hok as ((rb & Hb & Hrb) & Hok).
    apply js_strict_neq_false in Hrb.
    cbn [List.app sign_loop]. unfold then_ at 1.
    rewrite (signSendChunk_v2 app v) by assumption.
    rewrite Hb, Hrb.
    replace (1 + i + 1) with (1 + (i + 1)) in Hok by lia.
    rewrite (IH (i + 1) rb
               {| transport := transport app ++ [EvSignSendChunk (1 + i) chunkNum (Some b)];
                  versionResponse := Some v |} eq_refl Hok).
    + cbn [transport submissions]. rewrite <- app_assoc.
      replace (1 + i + 1) with (1 + (i + 1)) by lia. reflexivity.
    + cbn [transport]. rewrite <- app_assoc. cbn [List.app].
      cbn [submissions List.length] in Hc.
      replace (1 + (i + 1) + Z.of_nat (List.length before))
        with (1 + i + Z.of_nat (S (List.length before))) by lia.
      replace (1 + (i + 1)) with (1 + i + 1) by lia. exact Hc.
Qed.

(** X18: a rejected submission of the first chunk is answered by [sign]
    with [processErrorResponse] of what was thrown, and no other chunk is
    submitted; a rejected submission of a later chunk, the chunks before it
    accepted, is not caught: [sign] itself rejects with what was thrown. *)
Theorem sign_rejected_submission (path : Path) (message : Buffer.t) (app app1 : App)
    (v : VersionResponse) (c0 : Chunk) (e : Thrown) :
  versionResponse app1 = Some v ->
  ver_major v = Some 2 ->
  (forall rest,
      signGetChunks path message app = (app1, Returned (c0 :: rest)) ->
      let chunkNum := Z.of_nat (List.length (c0 :: rest)) in
      device_signSendChunkv2 (transport app1) 1 chunkNum (Some c0) = Thrown_ e ->
      sign path message app =
      ({| transport := transport app1 ++ submissions chunkNum 1 [c0];
          versionResponse := Some v |},
       Returned (ErrorReply (processErrorResponse e)))) /\
  (forall c before after r0,
      signGetChunks path message app = (app1, Returned (c0 :: before ++ c :: after)) ->
      let chunkNum := Z.of_nat (List.length (c0 :: before ++ c :: after)) in
      device_signSendChunkv2 (transport app1) 1 chunkNum (Some c0) = Returned r0 ->
      all_accepted (transport app1 ++ submissions chunkNum 1 [c0]) chunkNum 2 before ->
      device_signSendChunkv2
        (transport app1 ++ submissions chunkNum 1 (c0 :: before))
        (2 + Z.of_nat (List.length before)) chunkNum (Some c) = Thrown_ e ->
      sign path message app =
      ({| transport := transport app1 ++ submissions chunkNum 1 (c0 :: before ++ [c]);
          versionResponse := Some v |},
       Thrown_ e)).
Proof.
  intros Hv Hmajor. split.
  - intros rest Hchunks chunkNum H0.
    unfold sign, then2. rewrite Hchunks. fold chunkNum.
    cbn [nth_error]. rewrite (signSendChunk_v2 app1 v) by assumption.
    rewrite H0. reflexivity.
  - intros c before after r0 Hchunks chunkNum H0 Hok Hc.
    unfold sign, then2. rewrite Hchunks. fold chunkNum.
    cbn [nth_error skipn].
    rewrite (signSendChunk_v2 app1 v) by assumption. rewrite H0.
    unfold then_.
    rewrite (sign_loop_throws v chunkNum c after e Hmajor before 1).
    + cbn [transport submissions]. rewrite <- app_assoc. reflexivity.
    + reflexivity.
    + exact Hok.
    + cbn [transport]. rewrite <- app_assoc. exact Hc.
Qed.

(** *** The content of the frames *)



(** *** publicKey *)

(** X20: under version 2 with a path that serializes, [publicKey] hands to
    [publicKeyv2] the bytes 04 "thor" followed by the serialized path, after
    the one version query: the prefix is the fixed text "thor" with its length
    byte, and the outcome is that of [publicKeyv2]. *)
Theorem publicKey_request (path : Path) (app : App) (v : VersionResponse)
    (sp : Buffer.t) :
  device_getVersion (transport app) = Returned v ->
  ver_return_code v = Some ERROR_CODE_NoError ->
  ver_major v = Some 2 ->
  serializePathv2 path = Returned sp ->
  publicKey path app =
  publicKeyv2 ([x04; x74; x68; x6f; x72] ++ sp)
    {| transport := transport app ++ [EvGetVersion]; versionResponse := Some v |}.
Proof.
  intros Hv Hrc Hmajor Hsp.
  unfold publicKey.
  rewrite (serializePath_v2 path app v sp) by assumption.
  cbn [versionResponse]. rewrite Hmajor. reflexivity.
Qed.

(** X21: [publicKey] does not reach [publicKeyv2] when the version query is
    rejected or answered with a status other than success, when the major
    version is not 2, or when [serializePathv2] throws: it resolves to
    [processErrorResponse] of what was thrown, and for an unsupported
    version to the object with return code 0x6400. *)
Theorem publicKey_gate (path : Path) (app : App) :
  (forall e,
      device_getVersion (transport app) = Thrown_ e ->
      publicKey path app =
      ({| transport := transport app ++ [EvGetVersion];
          versionResponse := versionResponse app |},
       Returned (ErrorReply (processErrorResponse e)))) /\
  (forall v,
      device_getVersion (transport app) = Returned v ->
      let app1 := {| transport := transport app ++ [EvGetVersion];
                     versionResponse := Some v |} in
      (ver_return_code v <> Some ERROR_CODE_NoError ->
       publicKey path app =
       (app1, Returned (ErrorReply (processErrorResponse (ThrownVersion v))))) /\
      (ver_return_code v = Some ERROR_CODE_NoError ->
       ver_major v <> Some 2 ->
       publicKey path app =
       (app1, Returned (ErrorReply
                          {| err_return_code := Some 0x6400;
                             err_error_message := "App Version is not supported" |}))) /\
      (forall e,
          ver_return_code v = Some ERROR_CODE_NoError ->
          ver_major v = Some 2 ->
          serializePathv2 path = Thrown_ e ->
          publicKey path app =
          (app1, Returned (ErrorReply (processErrorResponse e))))).
Proof.
  split.
  - intros e He. unfold publicKey, serializePath, then_, getVersion_common.
    now rewrite He.
  - intros v Hv app1.
    unfold publicKey, serializePath, then_, getVersion_common. rewrite Hv.
    cbn [set_versionResponse transport versionResponse]. fold app1.
    repeat split.
    + intros Hrc. apply js_strict_neq_true in Hrc. now rewrite Hrc.
    + intros Hrc Hmajor. apply js_strict_neq_false in Hrc.
      apply js_strict_eq_false in Hmajor. rewrite Hrc, Hmajor.
      cbn. now rewrite Hmajor.
    + intros e Hrc Hmajor He. apply js_strict_neq_false in Hrc.
      apply js_strict_eq_true in Hmajor. now rewrite Hrc, Hmajor, He.
Qed.

End THORChainApp.

(** ** The operations on concrete inputs *)

Lemma serializeHRP_spec_witness :
  (exists len : byte,
      byteZ len = Z.of_nat (String.length "thor") /\
      serializeHRP (Some "thor"%string) = Returned (len :: bytes_of_string "thor")) /\
  serializeHRP (Some "th"%string) = Thrown_ (JsError "Invalid HRP").
Proof.
  split.
  - apply (proj1 serializeHRP_spec "thor"%string).
    + simpl; lia.
    + unfold is_ascii7; simpl.
      repeat first [apply Forall_nil | apply Forall_cons; [reflexivity|]].
  - apply (proj2 (proj2 serializeHRP_spec) "th"%string). simpl; lia.
Defined.

Lemma getBech32FromPK_spec_witness :
  getBech32FromPK Sample.sha256 Sample.ripemd160 Sample.bech32_toWords
    Sample.bech32_encode "thor" (repeat x02 31) =
  Thrown_ (JsError "expected compressed public key [31 bytes]") /\
  getBech32FromPK Sample.sha256 Sample.ripemd160 Sample.bech32_toWords
    Sample.bech32_encode "thor" (repeat x02 33) =
  Returned "thor1"%string.
Proof.
  split.
  - apply (proj1 (getBech32FromPK_spec Sample.sha256 Sample.ripemd160
                    Sample.bech32_toWords Sample.bech32_encode "thor" (repeat x02 31))).
    simpl; lia.
  - apply (proj2 (getBech32FromPK_spec Sample.sha256 Sample.ripemd160
                    Sample.bech32_toWords Sample.bech32_encode "thor" (repeat x02 33))).
    reflexivity.
Defined.

Lemma serializePath_version_gate_witness :
  serializePath Sample.serializePathv2 (Sample.device_getVersion 0x5515 2)
    Sample.path Sample.start =
  ({| transport := [EvGetVersion];
      versionResponse := Some (Sample.version 0x5515 2) |},
   Thrown_ (ThrownVersion (Sample.version 0x5515 2))) /\
  serializePath Sample.serializePathv2 (Sample.device_getVersion 0x9000 1)
    Sample.path Sample.start =
  ({| transport := [EvGetVersion];
      versionResponse := Some (Sample.version 0x9000 1) |},
   Returned (ErrorToken
               {| err_return_code := Some 0x6400;
                  err_error_message := "App Version is not supported" |})).
Proof.
  split.
  - apply (proj1 (serializePath_version_gate Sample.serializePathv2
                    (Sample.device_getVersion 0x5515 2) Sample.path Sample.start
                    (Sample.version 0x5515 2) eq_refl)).
    simpl. discriminate.
  - apply (proj2 (serializePath_version_gate Sample.serializePathv2
                    (Sample.device_getVersion 0x9000 1) Sample.path Sample.start
                    (Sample.version 0x9000 1) eq_refl)).
    + reflexivity.
    + simpl. discriminate.
Defined.

Lemma deviceInfo_mcuVersion_witness :
  (exists d : DeviceInfo,
      deviceInfo_onResponse Sample.errorCodeToString ascii_text
        (Sample.deviceInfo_tid ++ x03 :: Sample.deviceInfo_se
           ++ x04 :: Sample.deviceInfo_flags
           ++ x05 :: Sample.deviceInfo_mcu ++ [x90; x00]) = Decoded d /\
      mcuVersion d = "1.11"%string) /\
  (exists d : DeviceInfo,
      deviceInfo_onResponse Sample.errorCodeToString ascii_text
        (Sample.deviceInfo_tid ++ x03 :: Sample.deviceInfo_se
           ++ x04 :: Sample.deviceInfo_flags
           ++ x04 :: bytes_of_string "1.11" ++ [x90; x00]) = Decoded d /\
      mcuVersion d = "1.11"%string).
Proof.
  split.
  - destruct (deviceInfo_mcuVersion Sample.errorCodeToString ascii_text
                Sample.deviceInfo_tid Sample.deviceInfo_se Sample.deviceInfo_flags
                Sample.deviceInfo_mcu [x90; x00] x03 x04 x05
                eq_refl eq_refl eq_refl eq_refl)
      as (d & Hd & Hzero & _).
    + vm_compute. discriminate.
    + exists d. split; [exact Hd|].
      exact (Hzero (bytes_of_string "1.11") eq_refl).
  - destruct (deviceInfo_mcuVersion Sample.errorCodeToString ascii_text
                Sample.deviceInfo_tid Sample.deviceInfo_se Sample.deviceInfo_flags
                (bytes_of_string "1.11") [x90; x00] x03 x04 x04
                eq_refl eq_refl eq_refl eq_refl)
      as (d & Hd & _ & Hnonzero).
    + vm_compute. discriminate.
    + exists d. split; [exact Hd|].
      apply Hnonzero. intros m Hm.
      apply (f_equal (fun l => last l x01)) in Hm.
      rewrite last_last in Hm. vm_compute in Hm. discriminate.
Defined.

Lemma address_decode_witness :
  let r := getAddressAndPubKey_onResponse Sample.errorCodeToString ascii_text
             Sample.address_response in
  compressed_pk r = firstn 33 Sample.address_response /\
  compressed_pk r = repeat xaa 33 /\
  bech32_address r = "tthor1xyz"%string /\
  addr_return_code r = Some 0x9000.
Proof.
  apply (address_decode Sample.errorCodeToString ascii_text
           (repeat xaa 33) (bytes_of_string "tthor1xyz") x90 x00).
  - intros b _. reflexivity.
  - reflexivity.
  - unfold is_7bit; simpl.
    repeat first [apply Forall_nil | apply Forall_cons; [reflexivity|]].
Defined.

(** Version 2, the prefix "tthor": each operation makes the version query
    and one address request, with p1 = 0 in the first and p1 = 1 in the
    second, and both decode the same response. *)
Lemma getAddress_showAddress_differ_in_p1_witness :
  let run_get :=
    getAddressAndPubKey 0x55 0x04 0 Sample.errorCodeToString
      Sample.processErrorResponse Sample.serializePathv2 ascii_text
      (Sample.device_getVersion 0x9000 2) Sample.device_send
      Sample.path (Some "tthor"%string) Sample.start in
  let run_show :=
    showAddressAndPubKey 0x55 0x04 1 Sample.errorCodeToString
      Sample.processErrorResponse Sample.serializePathv2 ascii_text
      (Sample.device_getVersion 0x9000 2) Sample.device_send
      Sample.path (Some "tthor"%string) Sample.start in
  let data := [x05; x74; x74; x68; x6f; x72] ++ repeat x00 20 in
  snd run_get = snd run_show /\
  versionResponse (fst run_get) = versionResponse (fst run_show) /\
  transport (fst run_get) =
    [EvGetVersion; EvSend (mkRequest 0x55 0x04 0 0 (Some data) (Some [0x9000]))] /\
  transport (fst run_show) =
    [EvGetVersion; EvSend (mkRequest 0x55 0x04 1 0 (Some data) (Some [0x9000]))].
Proof.
  pose proof (getAddress_showAddress_differ_in_p1 0x55 0x04 0 1
                Sample.errorCodeToString
                Sample.processErrorResponse Sample.serializePathv2 ascii_text
                (Sample.device_getVersion 0x9000 2) Sample.device_send
                Sample.path (Some "tthor"%string) Sample.start
                (fun _ _ _ _ _ _ => eq_refl)) as H.
  cbv zeta.
  destruct (getAddressAndPubKey 0x55 0x04 0 Sample.errorCodeToString
              Sample.processErrorResponse Sample.serializePathv2 ascii_text
              (Sample.device_getVersion 0x9000 2) Sample.device_send
              Sample.path (Some "tthor"%string) Sample.start)
    as [app_get result_get].
  destruct (showAddressAndPubKey 0x55 0x04 1 Sample.errorCodeToString
              Sample.processErrorResponse Sample.serializePathv2 ascii_text
              (Sample.device_getVersion 0x9000 2) Sample.device_send
              Sample.path (Some "tthor"%string) Sample.start)
    as [app_show result_show].
  destruct H as (Hresult & Hversion & _ & [Hsent | Hnone]).
  - destruct Hsent as (app1 & sp & h & Hpath & Hhrp & Hget & Hshow).
    injection Hpath as <- <-. injection Hhrp as <-.
    cbn [fst snd]. repeat split; assumption.
  - exfalso. destruct Hnone as (Hnone & _).
    apply (Hnone (repeat x00 20) [x05; x74; x74; x68; x6f; x72]).
    split; reflexivity.
Defined.

Lemma signGetChunks_frames_witness :
  exists frames : list Buffer.t,
    signGetChunks 2 Sample.serializePathv2 (Sample.device_getVersion 0x9000 2)
      Sample.path [x01; x02; x03; x04; x05] Sample.start =
    ({| transport := [EvGetVersion];
        versionResponse := Some (Sample.version 0x9000 2) |},
     Returned (Bytes (repeat x00 20) :: map Bytes frames)) /\
    Z.of_nat (List.length (Bytes (repeat x00 20) :: map Bytes frames)) =
      1 + (Buffer.length [x01; x02; x03; x04; x05] + 2 - 1) / 2 /\
    List.concat frames = [x01; x02; x03; x04; x05] /\
    (forall k frame,
        nth_error frames k = Some frame -> (S k < List.length frames)%nat ->
        Buffer.length frame = 2) /\
    (forall frame, In frame frames -> 0 < Buffer.length frame <= 2).
Proof.
  apply (signGetChunks_frames 2 Sample.serializePathv2
           (Sample.device_getVersion 0x9000 2) Sample.path
           [x01; x02; x03; x04; x05] Sample.start).
  - lia.
  - reflexivity.
Defined.

(** An empty message, the path chunk answered with a refusal that has a
    signature field; and three message chunks after the path chunk, where
    the device refuses the third of the four submissions and the fourth is
    not made. *)
Lemma sign_stops_at_first_refused_chunk_witness :
  sign 250 Sample.processErrorResponse Sample.serializePathv2
    (Sample.device_getVersion 0x9000 2) Sample.refuse_with_text
    Sample.path [] Sample.start =
  ({| transport :=
        [EvGetVersion; EvSignSendChunk 1 1 (Some (Bytes (repeat x00 20)))];
      versionResponse := Some (Sample.version 0x9000 2) |},
   Returned (Decoded {| sign_return_code := Some 0x6984;
                        sign_error_message := "Data is invalid";
                        sign_signature := SigNull |})) /\
  sign 1 Sample.processErrorResponse Sample.serializePathv2
    (Sample.device_getVersion 0x9000 2) (Sample.refuse_chunk 3)
    Sample.path [x01; x02; x03] Sample.start =
  ({| transport :=
        [EvGetVersion;
         EvSignSendChunk 1 4 (Some (Bytes (repeat x00 20)));
         EvSignSendChunk 2 4 (Some (Bytes [x01]));
         EvSignSendChunk 3 4 (Some (Bytes [x02]))];
      versionResponse := Some (Sample.version 0x9000 2) |},
   Returned (Decoded Sample.refused)).
Proof.
  split.
  - apply (proj1 (sign_stops_at_first_refused_chunk 250 Sample.processErrorResponse
                    Sample.serializePathv2 (Sample.device_getVersion 0x9000 2)
                    Sample.refuse_with_text Sample.path [] Sample.start
                    {| transport := [EvGetVersion];
                       versionResponse := Some (Sample.version 0x9000 2) |}
                    (Sample.version 0x9000 2) (Bytes (repeat x00 20))
                    Sample.refused_with_text eq_refl eq_refl)).
    + reflexivity.
    + reflexivity.
  - apply (proj2 (sign_stops_at_first_refused_chunk 1 Sample.processErrorResponse
                    Sample.serializePathv2 (Sample.device_getVersion 0x9000 2)
                    (Sample.refuse_chunk 3) Sample.path [x01; x02; x03] Sample.start
                    {| transport := [EvGetVersion];
                       versionResponse := Some (Sample.version 0x9000 2) |}
                    (Sample.version 0x9000 2) (Bytes (repeat x00 20))
                    Sample.accepted eq_refl eq_refl)
             (Bytes [x02]) [Bytes [x01]] [Bytes [x03]] Sample.refused).
    + reflexivity.
    + reflexivity.
    + reflexivity.
    + simpl. split; [|exact I].
      exists Sample.accepted. split; reflexivity.
    + reflexivity.
    + simpl. discriminate.
Defined.

(** C1: [sign] at a path and a one-byte message, on a device that refuses
    the first (path) chunk and signs at the second.  The return code of the
    first answer is not success, and still the second chunk is submitted and
    the result of [sign] is the answer to the second chunk: [sign] does not
    end at the first refused chunk when that chunk is the first. *)
Lemma sign_continues_after_refused_path_chunk :
  let device := Sample.refuse_chunk 1 in
  let run :=
    sign 250 Sample.processErrorResponse Sample.serializePathv2
      (Sample.device_getVersion 0x9000 2) device
      Sample.path [x0a] Sample.start in
  device [EvGetVersion] 1 2 (Some (Bytes (repeat x00 20))) = Returned Sample.refused /\
  sign_return_code Sample.refused <> Some ERROR_CODE_NoError /\
  transport (fst run) =
    [EvGetVersion;
     EvSignSendChunk 1 2 (Some (Bytes (repeat x00 20)));
     EvSignSendChunk 2 2 (Some (Bytes [x0a]))] /\
  snd run = Returned (Decoded Sample.signed).
Proof.
  cbv zeta. split; [reflexivity|]. split; [discriminate|]. split; reflexivity.
Qed.

(** With the flag byte 0x85 the bit of mask 0x04 is set, so flag_onboarded
    is not false. *)
Lemma appInfo_onboarded_set_at_0x85 :
  flag_onboarded
    (appInfo_onResponse Sample.errorCodeToString
       [x01; x03; x61; x62; x63; x03; x31; x2e; x30; x01; x85; x90; x00]) <> false.
Proof. vm_compute. discriminate. Qed.

(** ** Further runs on concrete inputs *)

Lemma serializeHRP_buffer_shape_witness :
  (exists buf, serializeHRP (Some Sample.e_acute3) = Returned buf) /\
  Buffer.length [x03; xc3; xa9; x00] = 1 + Z.of_nat (String.length Sample.e_acute3) /\
  Buffer.get [x03; xc3; xa9; x00] (Some 0) =
    Some (Z.of_nat (String.length Sample.e_acute3)).
Proof.
  split.
  - apply (proj2 (proj1 (serializeHRP_buffer_shape (Some Sample.e_acute3)))).
    exists Sample.e_acute3. split; [reflexivity|]. simpl. lia.
  - apply (proj2 (serializeHRP_buffer_shape (Some Sample.e_acute3))
             Sample.e_acute3 [x03; xc3; xa9; x00]); reflexivity.
Defined.

Lemma serializeHRP_roundtrip_witness :
  Buffer.toString_ascii
    (Buffer.slice_from [x05; x74; x74; x68; x6f; x72] (Some 1)) = "tthor"%string /\
  Buffer.get [x05; x74; x74; x68; x6f; x72] (Some 0) =
    Some (Z.of_nat (String.length "tthor")) /\
  (forall s', is_ascii7 s' ->
              serializeHRP (Some s') = Returned [x05; x74; x74; x68; x6f; x72] ->
              s' = "tthor"%string).
Proof.
  apply (serializeHRP_roundtrip "tthor" [x05; x74; x74; x68; x6f; x72]).
  - unfold is_ascii7; simpl.
    repeat first [apply Forall_nil | apply Forall_cons; [reflexivity|]].
  - reflexivity.
Defined.

Lemma serializePath_returns_bytes_iff_witness :
  serializePath Sample.serializePathv2 (Sample.device_getVersion 0x9000 2)
    Sample.path Sample.start =
  ({| transport := [EvGetVersion];
      versionResponse := Some (Sample.version 0x9000 2) |},
   Returned (Bytes (repeat x00 20))).
Proof.
  apply (proj2 (serializePath_returns_bytes_iff Sample.serializePathv2
                  (Sample.device_getVersion 0x9000 2) Sample.path Sample.start
                  {| transport := [EvGetVersion];
                     versionResponse := Some (Sample.version 0x9000 2) |}
                  (repeat x00 20))).
  exists (Sample.version 0x9000 2). repeat split; reflexivity.
Defined.

Lemma facade_rejected_exchange_witness :
  getVersion Sample.processErrorResponse Sample.device_getVersion_rejects Sample.start =
  ({| transport := [EvGetVersion]; versionResponse := None |},
   Returned (ErrorReply (Sample.processErrorResponse Sample.disconnected))) /\
  snd (appInfo Sample.errorCodeToString Sample.processErrorResponse
         Sample.device_send_rejects Sample.start) =
  Returned (ErrorReply (Sample.processErrorResponse Sample.disconnected)) /\
  snd (deviceInfo Sample.errorCodeToString Sample.processErrorResponse ascii_text
         Sample.device_send_rejects Sample.start) =
  Returned (ErrorReply (Sample.processErrorResponse Sample.disconnected)).
Proof.
  pose proof (facade_rejected_exchange Sample.errorCodeToString
                Sample.processErrorResponse ascii_text
                Sample.device_getVersion_rejects Sample.device_send_rejects
                Sample.start Sample.disconnected) as (Hversion & HappInfo & HdeviceInfo).
  split; [|split].
  - apply Hversion. reflexivity.
  - apply HappInfo. reflexivity.
  - apply HdeviceInfo. reflexivity.
Defined.

Lemma address_invalid_hrp_witness :
  let run_get :=
    getAddressAndPubKey 0x55 0x04 0 Sample.errorCodeToString
      Sample.processErrorResponse Sample.serializePathv2 ascii_text
      (Sample.device_getVersion 0x9000 2) Sample.device_send
      Sample.path (Some "th"%string) Sample.start in
  let run_show :=
    showAddressAndPubKey 0x55 0x04 1 Sample.errorCodeToString
      Sample.processErrorResponse Sample.serializePathv2 ascii_text
      (Sample.device_getVersion 0x9000 2) Sample.device_send
      Sample.path (Some "th"%string) Sample.start in
  let run_path :=
    serializePath Sample.serializePathv2 (Sample.device_getVersion 0x9000 2)
      Sample.path Sample.start in
  (fst run_get = fst run_path /\ fst run_show = fst run_path /\
   transport (fst run_path) = [EvGetVersion]) /\
  snd run_get =
    Returned (ErrorReply (Sample.processErrorResponse (JsError "Invalid HRP"))) /\
  snd run_show =
    Returned (ErrorReply (Sample.processErrorResponse (JsError "Invalid HRP"))).
Proof.
  destruct (address_invalid_hrp 0x55 0x04 0 1 Sample.errorCodeToString
              Sample.processErrorResponse Sample.serializePathv2 ascii_text
              (Sample.device_getVersion 0x9000 2) Sample.device_send
              Sample.path (Some "th"%string) Sample.start)
    as (Hstate & Hreturned & _).
  - intros s Hs. injection Hs as <-. simpl. lia.
  - split; [exact Hstate|].
    exact (Hreturned (Bytes (repeat x00 20)) eq_refl).
Defined.

Lemma address_version_gate_witness :
  getAddressAndPubKey 0x55 0x04 0 Sample.errorCodeToString
    Sample.processErrorResponse Sample.serializePathv2 ascii_text
    (Sample.device_getVersion 0x5515 2) Sample.device_send
    Sample.path (Some "thor"%string) Sample.start =
  ({| transport := [EvGetVersion];
      versionResponse := Some (Sample.version 0x5515 2) |},
   Returned (ErrorReply {| err_return_code := Some 0x5515;
                           err_error_message := "Unknown error code" |})) /\
  getAddressAndPubKey 0x55 0x04 0 Sample.errorCodeToString
    Sample.processErrorResponse Sample.serializePathv2 ascii_text
    (Sample.device_getVersion 0x9000 1) Sample.device_send
    Sample.path (Some "thor"%string) Sample.start =
  ({| transport := [EvGetVersion];
      versionResponse := Some (Sample.version 0x9000 1) |},
   Returned (ErrorReply {| err_return_code := Some 0xffff;
                           err_error_message := "error" |})).
Proof.
  split.
  - apply (proj1 (address_version_gate 0x55 0x04 0 1 Sample.errorCodeToString
                    Sample.processErrorResponse Sample.serializePathv2 ascii_text
                    (Sample.device_getVersion 0x5515 2) Sample.device_send
                    Sample.path (Some "thor"%string) Sample.start
                    (Sample.version 0x5515 2) eq_refl)).
    simpl. discriminate.
  - apply (proj2 (address_version_gate 0x55 0x04 0 1 Sample.errorCodeToString
                    Sample.processErrorResponse Sample.serializePathv2 ascii_text
                    (Sample.device_getVersion 0x9000 1) Sample.device_send
                    Sample.path (Some "thor"%string) Sample.start
                    (Sample.version 0x9000 1) eq_refl)
             eq_refl) with (h := [x04; x74; x68; x6f; x72]).
    + simpl. discriminate.
    + reflexivity.
Defined.

Lemma getAddressAndPubKey_request_witness :
  exists len : byte,
    byteZ len = 5 /\
    let request :=
      mkRequest 0x55 0x04 0 0
        (Some (len :: bytes_of_string "tthor" ++ repeat x00 20)) (Some [0x9000]) in
    let run :=
      getAddressAndPubKey 0x55 0x04 0 Sample.errorCodeToString
        Sample.processErrorResponse Sample.serializePathv2 ascii_text
        (Sample.device_getVersion 0x9000 2) Sample.device_send
        Sample.path (Some "tthor"%string) Sample.start in
    fst run = {| transport := [EvGetVersion; EvSend request];
                 versionResponse := Some (Sample.version 0x9000 2) |} /\
    (forall response,
        Sample.device_send [EvGetVersion] request = Returned response ->
        snd run = Returned (Decoded (getAddressAndPubKey_onResponse
                                       Sample.errorCodeToString ascii_text response))) /\
    (forall e,
        Sample.device_send [EvGetVersion] request = Thrown_ e ->
        snd run = Returned (ErrorReply (Sample.processErrorResponse e))).
Proof.
  apply (getAddressAndPubKey_request 0x55 0x04 0 Sample.errorCodeToString
           Sample.processErrorResponse Sample.serializePathv2 ascii_text
           (Sample.device_getVersion 0x9000 2) Sample.device_send
           Sample.path "tthor"%string Sample.start (Sample.version 0x9000 2)
           (repeat x00 20)).
  - reflexivity.
  - reflexivity.
  - reflexivity.
  - reflexivity.
  - simpl. lia.
  - unfold is_ascii7; simpl.
    repeat first [apply Forall_nil | apply Forall_cons; [reflexivity|]].
Defined.

Lemma decoders_return_code_witness :
  (exists p a b,
      Sample.address_response = p ++ [a; b] /\
      0 <= byteZ a * 256 + byteZ b <= 0xFFFF /\
      Forall (fun code => code = Some (byteZ a * 256 + byteZ b))
        [app_return_code (appInfo_onResponse Sample.errorCodeToString
                            Sample.address_response);
         addr_return_code (getAddressAndPubKey_onResponse Sample.errorCodeToString
                             ascii_text Sample.address_response);
         addr_return_code (showAddressAndPubKey_onResponse Sample.errorCodeToString
                             ascii_text Sample.address_response)]) /\
  Forall (fun code => code = None)
    [app_return_code (appInfo_onResponse Sample.errorCodeToString [x90]);
     addr_return_code (getAddressAndPubKey_onResponse Sample.errorCodeToString
                         ascii_text [x90]);
     addr_return_code (showAddressAndPubKey_onResponse Sample.errorCodeToString
                         ascii_text [x90])].
Proof.
  split.
  - apply (proj1 (decoders_return_code Sample.errorCodeToString ascii_text
                    Sample.address_response)).
    simpl. lia.
  - apply (proj2 (decoders_return_code Sample.errorCodeToString ascii_text [x90])).
    simpl. lia.
Defined.

Lemma deviceInfo_decode_witness :
  exists d : DeviceInfo,
    deviceInfo_onResponse Sample.errorCodeToString ascii_text
      (Sample.deviceInfo_tid ++ x03 :: Sample.deviceInfo_se
         ++ x04 :: Sample.deviceInfo_flags
         ++ x05 :: Sample.deviceInfo_mcu ++ [x90; x00]) = Decoded d /\
    targetId d = "31100004"%string /\
    seVersion d = "1.6"%string /\
    flag d = "ee000000"%string /\
    dev_return_code d = Some 0x9000 /\
    dev_error_message d = "No errors"%string.
Proof.
  apply (deviceInfo_decode Sample.errorCodeToString ascii_text
           Sample.deviceInfo_tid Sample.deviceInfo_se Sample.deviceInfo_flags
           Sample.deviceInfo_mcu x03 x04 x05 x90 x00);
    try reflexivity.
  vm_compute. discriminate.
Defined.

Lemma appInfo_decode_witness :
  let r := appInfo_onResponse Sample.errorCodeToString
             (x01 :: x09 :: Sample.appInfo_name
                ++ x05 :: Sample.appInfo_version ++ x01 :: x83 :: [x90; x00]) in
  appName r = "THORChain"%string /\
  appVersion r = "2.1.0"%string /\
  flagLen r = Some 1 /\
  flagsValue r = Some 0x83 /\
  flag_recovery r = true /\
  flag_signed_mcu_code r = true /\
  flag_onboarded r = false /\
  flag_pin_validated r = true.
Proof.
  apply (appInfo_decode Sample.errorCodeToString x09 x05 x01 x83
           Sample.appInfo_name Sample.appInfo_version [x90; x00]);
    reflexivity.
Defined.

(** Two message chunks after the path chunk, all accepted, the signature
    returned at the third submission. *)
Lemma sign_runs_to_last_chunk_witness :
  sign 2 Sample.processErrorResponse Sample.serializePathv2
    (Sample.device_getVersion 0x9000 2) (Sample.refuse_chunk 0)
    Sample.path [x01; x02; x03] Sample.start =
  ({| transport :=
        [EvGetVersion;
         EvSignSendChunk 1 3 (Some (Bytes (repeat x00 20)));
         EvSignSendChunk 2 3 (Some (Bytes [x01; x02]));
         EvSignSendChunk 3 3 (Some (Bytes [x03]))];
      versionResponse := Some (Sample.version 0x9000 2) |},
   Returned (Decoded Sample.signed)).
Proof.
  apply (sign_runs_to_last_chunk 2 Sample.processErrorResponse
           Sample.serializePathv2 (Sample.device_getVersion 0x9000 2)
           (Sample.refuse_chunk 0) Sample.path [x01; x02; x03] Sample.start
           {| transport := [EvGetVersion];
              versionResponse := Some (Sample.version 0x9000 2) |}
           (Sample.version 0x9000 2)
           (Bytes (repeat x00 20)) (Bytes [x03]) [Bytes [x01; x02]]
           Sample.accepted Sample.signed).
  - reflexivity.
  - reflexivity.
  - reflexivity.
  - reflexivity.
  - simpl. split; [|exact I].
    exists Sample.accepted. split; reflexivity.
  - reflexivity.
Defined.

Lemma sign_submits_a_prefix_witness :
  exists k : nat,
    (1 <= k <= 4)%nat /\
    fst (sign 1 Sample.processErrorResponse Sample.serializePathv2
           (Sample.device_getVersion 0x9000 2) (Sample.throw_at 2)
           Sample.path [x01; x02; x03] Sample.start) =
    {| transport :=
         [EvGetVersion]
           ++ submissions 4 1
                (firstn k [Bytes (repeat x00 20); Bytes [x01]; Bytes [x02]; Bytes [x03]]);
       versionResponse := Some (Sample.version 0x9000 2) |}.
Proof.
  apply (sign_submits_a_prefix 1 Sample.processErrorResponse
           Sample.serializePathv2 (Sample.device_getVersion 0x9000 2)
           (Sample.throw_at 2) Sample.path [x01; x02; x03] Sample.start
           {| transport := [EvGetVersion];
              versionResponse := Some (Sample.version 0x9000 2) |}
           (Sample.version 0x9000 2)
           (Bytes (repeat x00 20)) [Bytes [x01]; Bytes [x02]; Bytes [x03]]);
    reflexivity.
Defined.

Lemma sign_unsupported_version_witness :
  sign 250 Sample.processErrorResponse Sample.serializePathv2
    (Sample.device_getVersion 0x9000 1) (Sample.refuse_chunk 0)
    Sample.path [x01; x02; x03] Sample.start =
  ({| transport := [EvGetVersion];
      versionResponse := Some (Sample.version 0x9000 1) |},
   Returned (Decoded {| sign_return_code := Some 0x6400;
                        sign_error_message := "App Version is not supported";
                        sign_signature := SigUndefined |})).
Proof.
  apply (sign_unsupported_version 250 Sample.processErrorResponse
           Sample.serializePathv2 (Sample.device_getVersion 0x9000 1)
           (Sample.refuse_chunk 0) Sample.path [x01; x02; x03] Sample.start
           (Sample.version 0x9000 1)).
  - lia.
  - reflexivity.
  - reflexivity.
  - simpl. discriminate.
Defined.

Lemma sign_version_query_fails_witness :
  sign 250 Sample.processErrorResponse Sample.serializePathv2
    (Sample.device_getVersion 0x5515 2) (Sample.refuse_chunk 0)
    Sample.path [x01] Sample.start =
  ({| transport := [EvGetVersion];
      versionResponse := Some (Sample.version 0x5515 2) |},
   Returned (ErrorReply {| err_return_code := Some 0x5515;
                           err_error_message := "Unknown error code" |})) /\
  sign 250 Sample.processErrorResponse Sample.serializePathv2
    Sample.device_getVersion_rejects (Sample.refuse_chunk 0)
    Sample.path [x01] Sample.start =
  ({| transport := [EvGetVersion]; versionResponse := None |},
   Returned (ErrorReply (Sample.processErrorResponse Sample.disconnected))).
Proof.
  split.
  - apply (proj1 (sign_version_query_fails 250 Sample.processErrorResponse
                    Sample.serializePathv2 (Sample.device_getVersion 0x5515 2)
                    (Sample.refuse_chunk 0) Sample.path [x01] Sample.start)
             (Sample.version 0x5515 2)).
    + reflexivity.
    + simpl. discriminate.
  - apply (proj2 (sign_version_query_fails 250 Sample.processErrorResponse
                    Sample.serializePathv2 Sample.device_getVersion_rejects
                    (Sample.refuse_chunk 0) Sample.path [x01] Sample.start)
             Sample.disconnected).
    reflexivity.
Defined.

(** The transport disconnected at the first submission, and at the third. *)
Lemma sign_rejected_submission_witness :
  sign 1 Sample.processErrorResponse Sample.serializePathv2
    (Sample.device_getVersion 0x9000 2) (Sample.throw_at 1)
    Sample.path [x01; x02; x03] Sample.start =
  ({| transport :=
        [EvGetVersion; EvSignSendChunk 1 4 (Some (Bytes (repeat x00 20)))];
      versionResponse := Some (Sample.version 0x9000 2) |},
   Returned (ErrorReply (Sample.processErrorResponse Sample.disconnected))) /\
  sign 1 Sample.processErrorResponse Sample.serializePathv2
    (Sample.device_getVersion 0x9000 2) (Sample.throw_at 3)
    Sample.path [x01; x02; x03] Sample.start =
  ({| transport :=
        [EvGetVersion;
         EvSignSendChunk 1 4 (Some (Bytes (repeat x00 20)));
         EvSignSendChunk 2 4 (Some (Bytes [x01]));
         EvSignSendChunk 3 4 (Some (Bytes [x02]))];
      versionResponse := Some (Sample.version 0x9000 2) |},
   Thrown_ Sample.disconnected).
Proof.
  split.
  - apply (proj1 (sign_rejected_submission 1 Sample.processErrorResponse
                    Sample.serializePathv2 (Sample.device_getVersion 0x9000 2)
                    (Sample.throw_at 1) Sample.path [x01; x02; x03] Sample.start
                    {| transport := [EvGetVersion];
                       versionResponse := Some (Sample.version 0x9000 2) |}
                    (Sample.version 0x9000 2) (Bytes (repeat x00 20))
                    Sample.disconnected eq_refl eq_refl)
             [Bytes [x01]; Bytes [x02]; Bytes [x03]]);
      reflexivity.
  - apply (proj2 (sign_rejected_submission 1 Sample.processErrorResponse
                    Sample.serializePathv2 (Sample.device_getVersion 0x9000 2)
                    (Sample.throw_at 3) Sample.path [x01; x02; x03] Sample.start
                    {| transport := [EvGetVersion];
                       versionResponse := Some (Sample.version 0x9000 2) |}
                    (Sample.version 0x9000 2) (Bytes (repeat x00 20))
                    Sample.disconnected eq_refl eq_refl)
             (Bytes [x02]) [Bytes [x01]] [Bytes [x03]] Sample.accepted).
    + reflexivity.
    + reflexivity.
    + simpl. split; [|exact I].
      exists Sample.accepted. split; reflexivity.
    + reflexivity.
Defined.


Lemma publicKey_request_witness :
  publicKey Sample.processErrorResponse Sample.serializePathv2
    (Sample.device_getVersion 0x9000 2) Sample.publicKeyv2 Sample.path Sample.start =
  ({| transport :=
        [EvGetVersion;
         EvSend (mkRequest 0x55 0x04 0 0
                   (Some (x04 :: bytes_of_string "thor" ++ repeat x00 20))
                   (Some [0x9000]))];
      versionResponse := Some (Sample.version 0x9000 2) |},
   Returned (Decoded {| pk_compressed_pk := repeat x02 33;
                        pk_return_code := Some 0x9000;
                        pk_error_message := "No errors" |})).
Proof.
  rewrite (publicKey_request Sample.processErrorResponse Sample.serializePathv2
             (Sample.device_getVersion 0x9000 2) Sample.publicKeyv2 Sample.path
             Sample.start (Sample.version 0x9000 2) (repeat x00 20));
    reflexivity.
Defined.

Lemma publicKey_gate_witness :
  publicKey Sample.processErrorResponse Sample.serializePathv2
    Sample.device_getVersion_rejects Sample.publicKeyv2 Sample.path Sample.start =
  ({| transport := [EvGetVersion]; versionResponse := None |},
   Returned (ErrorReply (Sample.processErrorResponse Sample.disconnected))) /\
  publicKey Sample.processErrorResponse Sample.serializePathv2
    (Sample.device_getVersion 0x5515 2) Sample.publicKeyv2 Sample.path Sample.start =
  ({| transport := [EvGetVersion];
      versionResponse := Some (Sample.version 0x5515 2) |},
   Returned (ErrorReply {| err_return_code := Some 0x5515;
                           err_error_message := "Unknown error code" |})) /\
  publicKey Sample.processErrorResponse Sample.serializePathv2
    (Sample.device_getVersion 0x9000 1) Sample.publicKeyv2 Sample.path Sample.start =
  ({| transport := [EvGetVersion];
      versionResponse := Some (Sample.version 0x9000 1) |},
   Returned (ErrorReply {| err_return_code := Some 0x6400;
                           err_error_message := "App Version is not supported" |})) /\
  publicKey Sample.processErrorResponse Sample.serializePathv2
    (Sample.device_getVersion 0x9000 2) Sample.publicKeyv2 [44; 931] Sample.start =
  ({| transport := [EvGetVersion];
      versionResponse := Some (Sample.version 0x9000 2) |},
   Returned (ErrorReply {| err_return_code := Some 0xffff;
                           err_error_message := "Invalid path." |})).
Proof.
  split; [|split; [|split]].
  - apply (proj1 (publicKey_gate Sample.processErrorResponse Sample.serializePathv2
                    Sample.device_getVersion_rejects Sample.publicKeyv2 Sample.path
                    Sample.start) Sample.disconnected).
    reflexivity.
  - apply (proj1 (proj2 (publicKey_gate Sample.processErrorResponse
                           Sample.serializePathv2
                           (Sample.device_getVersion 0x5515 2)
                           Sample.publicKeyv2 Sample.path Sample.start)
                    (Sample.version 0x5515 2) eq_refl)).
    simpl. discriminate.
  - apply (proj1 (proj2 (proj2 (publicKey_gate Sample.processErrorResponse
                                  Sample.serializePathv2
                                  (Sample.device_getVersion 0x9000 1)
                                  Sample.publicKeyv2 Sample.path Sample.start)
                           (Sample.version 0x9000 1) eq_refl))).
    + reflexivity.
    + simpl. discriminate.
  - apply (proj2 (proj2 (proj2 (publicKey_gate Sample.processErrorResponse
                                  Sample.serializePathv2
                                  (Sample.device_getVersion 0x9000 2)
                                  Sample.publicKeyv2 [44; 931] Sample.start)
                           (Sample.version 0x9000 2) eq_refl))
             (JsError "Invalid path.")); reflexivity.
Defined.

(** A prefix of three characters that are not ASCII: the buffer has the
    length byte 3, the two bytes UTF-8 writes for the first character and a
    zero; it is not the length byte followed by one byte per character. *)
Lemma serializeHRP_non_ascii_prefix :
  (3 <= String.length Sample.e_acute3 <= 83)%nat /\
  serializeHRP (Some Sample.e_acute3) = Returned [x03; xc3; xa9; x00] /\
  bytes_of_string Sample.e_acute3 = [xe9; xe9; xe9] /\
  (forall len : byte,
      serializeHRP (Some Sample.e_acute3) <>
      Returned (len :: bytes_of_string Sample.e_acute3)).
Proof.
  split; [simpl; lia|]. split; [reflexivity|]. split; [reflexivity|].
  intros len H. vm_compute in H. discriminate H.
Qed.
